(** * rnastructure.util: the program wrapper and the unit identifiers

    A shallow embedding of [src/rnastructure/util/wrapper.py] (the option
    validators, [Wrapper.validate_options], [Wrapper.generate_options] and
    the supervisor [Wrapper.__call__]) and of
    [src/rnastructure/util/unit_ids.py] (the generators and parsers of
    identifiers), followed by their properties. *)

From Stdlib Require Import List String Ascii Bool ZArith Lia DecimalString.
Import ListNotations.
Local Open Scope string_scope.
Local Open Scope list_scope.

Set Implicit Arguments.

(** String concatenation, the [+] and [%] of Python's strings; [++] stays
    the append of lists. *)
Infix "+++" := String.append (right associativity, at level 60).

(** ** Python values *)

(** The values an option may carry on a command line: [None], the booleans,
    integers and strings. *)
Inductive PyVal : Type :=
| VNone
| VBool (b : bool)
| VInt (z : Z)
| VStr (s : string).

(** [str(z)] for an integer. *)
Definition str_of_Z (z : Z) : string :=
  NilZero.string_of_int (Z.to_int z).

(** ['%s' % v]: the text a value is formatted to.  (A tuple, the one
    operand [%] takes apart instead of formatting, is not a [PyVal].) *)
Definition py_str (v : PyVal) : string :=
  match v with
  | VNone => "None"
  | VBool true => "True"
  | VBool false => "False"
  | VInt z => str_of_Z z
  | VStr s => s
  end.

(** Truth value of an object, as [if v:] and [not v] test it. *)
Definition truthy (v : PyVal) : bool :=
  match v with
  | VNone => false
  | VBool b => b
  | VInt z => negb (z =? 0)%Z
  | VStr s => negb (s =? "")
  end.

(** [a == b], with booleans comparing as the integers 0 and 1. *)
Definition py_num (v : PyVal) : option Z :=
  match v with
  | VBool true => Some 1%Z
  | VBool false => Some 0%Z
  | VInt z => Some z
  | _ => None
  end.

Definition py_eq (a b : PyVal) : bool :=
  match py_num a, py_num b with
  | Some x, Some y => (x =? y)%Z
  | None, None =>
      match a, b with
      | VNone, VNone => true
      | VStr s, VStr t => s =? t
      | _, _ => false
      end
  | _, _ => false
  end.

(** ** Text helpers *)

(** [needle in hay] on strings. *)
Fixpoint contains (needle hay : string) : bool :=
  match hay with
  | EmptyString => prefix needle EmptyString
  | String _ rest => prefix needle hay || contains needle rest
  end.

(** ** The module-level validators (lines 14-28) *)

Definition is_number (arg : PyVal) : bool := false.

(** [arg is True]: identity with the singleton [True], so [1] and ["True"]
    are not accepted. *)
Definition is_true (arg : PyVal) : bool :=
  match arg with
  | VBool true => true
  | _ => false
  end.

Definition is_in (known : list PyVal) : PyVal -> bool :=
  fun arg => existsb (py_eq arg) known.

(** ** Exceptions and results *)

Inductive exn : Type :=
| ValueError (msg : string)
| UnknownOptionError (msg : string)
| InvalidOptionError (msg : string)
| InvalidInputError (msg : string)
| ProgramTimeOutError (msg : string)
| ProgramFailedError (msg : string)
| EnvError (msg : string).
(* [EnvError]: what the operating system or a subclass hook raises
   (IOError, OSError, TypeError, ...). *)

Inductive Result (A : Type) : Type :=
| Ok (a : A)
| Raise (e : exn).
Arguments Ok {A} a.
Arguments Raise {A} e.

(** ** Dictionaries

    [options] and [Wrapper.options] are dicts with string keys.  The loops
    of the wrapper iterate over them and the order of iteration shows in
    their results, so a dict is the list of its items in iteration order
    (in which a key occurs once). *)

Definition Dict (V : Type) : Type := list (string * V).

Definition keys {V} (d : Dict V) : list string := map fst d.

(** [d[key]], [None] when [key not in d]. *)
Fixpoint get {V} (key : string) (d : Dict V) : option V :=
  match d with
  | [] => None
  | (k, v) :: rest => if k =? key then Some v else get key rest
  end.

(** [key in s] for a set of strings. *)
Definition mem (key : string) (s : list string) : bool :=
  existsb (String.eqb key) s.

Definition Options : Type := Dict PyVal.
Definition Schema : Type := Dict (PyVal -> bool).

(** ** Wrapper.validate_options (lines 125-148) *)

(** Lines 134-137: the loop collecting the keys that are not known. *)
Definition extra_keys_of (known_options : list string) (options : Options)
  : list string :=
  fold_left
    (fun extra_keys key =>
       if negb (mem key known_options) then extra_keys ++ [key]
       else extra_keys)
    (keys options) [].

(** Lines 142-147: the loop over the schema, leaving at the first value its
    pattern rejects. *)
Fixpoint check_patterns (items : Schema) (options : Options) : Result bool :=
  match items with
  | [] => Ok true
  | (key, pattern) :: rest =>
      match get key options with
      | Some value =>
          if negb (pattern value) then
            Raise (InvalidOptionError
                     ("Key " +++ key +++ " has invalid value " +++ py_str value))
          else check_patterns rest options
      | None => check_patterns rest options
      end
  end.

Definition validate_options (schema : Schema) (options : Options)
  : Result bool :=
  let known_options := keys schema in
  let extra_keys := extra_keys_of known_options options in
  match extra_keys with
  | _ :: _ =>
      let key_str :=
        "Options: " +++ String.concat ", " extra_keys +++ " are unknown." in
      Raise (UnknownOptionError key_str)
  | [] => check_patterns schema options
  end.

(** ** Wrapper.generate_options (lines 175-192) *)

(** One turn of the loop of lines 185-191. *)
Definition generate_option (opts : list PyVal) (item : string * PyVal)
  : list PyVal :=
  let '(key, value) := item in
  let opt := if (String.length key =? 1)%nat then "-" else "--" in
  let opts := opts ++ [VStr (opt +++ py_str value)] in
  if negb (is_true value) then opts ++ [value] else opts.

Definition generate_options (filename : option string) (options : Options)
  : list PyVal :=
  fold_left generate_option options [].

(** Wrapper.generate_arguments (lines 167-173); a [None] filename is passed
    on as it is. *)
Definition generate_arguments (filename : option string)
    (options : list PyVal) : list PyVal :=
  [match filename with Some f => VStr f | None => VNone end].

(** Wrapper.generate_program_arguments (lines 150-165). *)
Definition generate_program_arguments (filename : option string)
    (options : Options) : list PyVal :=
  let options := generate_options filename options in
  let inputs := generate_arguments filename options in
  let arguments := [] in
  let arguments :=
    match options with _ :: _ => arguments ++ options | [] => arguments end in
  match inputs with _ :: _ => arguments ++ inputs | [] => arguments end.

(** ** The world the wrapper runs in *)

(** A [Popen] object: its identity, what the program writes to its two
    streams, and [returncode] ([None] until a [poll] finds it finished). *)
Record Process : Type := {
  pid : nat;
  proc_stdout : string;
  proc_stderr : string;
  returncode : option Z
}.

(** What a call does to the file system and to processes, in order. *)
Inductive Event : Type :=
| Mkdtemp (dir : string)
| Chdir (dir : string)
| OpenWrite (dir name : string)
| WriteFile (name content : string)
| CloseFile (name : string)
| Spawn (arguments : list PyVal) (stdin_pipe : bool)
| StdinWrite (p : nat) (content : string)
| Select (p : nat) (time : Z)
| Kill (p : nat)
| Poll (p : nat).

(** The process-wide current directory and the effects so far. *)
Record World : Type := {
  cwd : string;
  trace : list Event
}.

(** What a system call or a hook gives: a value, or the message of the
    exception it raises. *)
Inductive Outcome (A : Type) : Type :=
| Done (a : A)
| Fails (msg : string).
Arguments Done {A} a.
Arguments Fails {A} msg.

(** The answers of the operating system to the calls of one invocation. *)
Record OS : Type := {
  mkdtemp : Outcome string;
  isdir : string -> bool;
  can_open : string -> string -> bool;
  popen : list PyVal -> bool -> Outcome Process;
  stdin_write : Process -> string -> Outcome unit;
  select : Process -> Z -> Outcome bool;
  exit_status : Process -> option Z
}.

(** ** A small state-and-exception monad *)

Definition M (A : Type) : Type := World -> Result A * World.

Definition ret {A} (a : A) : M A := fun w => (Ok a, w).

Definition raise {A} (e : exn) : M A := fun w => (Raise e, w).

Definition bind {A B} (m : M A) (k : A -> M B) : M B :=
  fun w =>
    match m w with
    | (Ok a, w') => k a w'
    | (Raise e, w') => (Raise e, w')
    end.

Notation "x <- m ;; k" := (bind m (fun x => k))
  (at level 61, m at next level, right associativity).
Notation "' pat <- m ;; k" :=
  (bind m (fun x => match x with pat => k end))
  (at level 61, pat pattern, m at next level, right associativity).
Notation "m ;; k" := (bind m (fun _ => k))
  (at level 61, right associativity).

Definition emit (ev : Event) : M unit :=
  fun w => (Ok tt, {| cwd := cwd w; trace := trace w ++ [ev] |}).

Definition of_result {A} (r : Result A) : M A := fun w => (r, w).

(** What a hook or a system call raises goes through [__call__] untouched;
    here it is the one [EnvError], whose class is not kept. *)
Definition of_outcome {A} (o : Outcome A) : M A :=
  match o with
  | Done a => ret a
  | Fails msg => raise (EnvError msg)
  end.

(** [os.getcwd()] and [os.chdir(dir)]. *)
Definition getcwd : M string := fun w => (Ok (cwd w), w).

Definition chdir (os : OS) (dir : string) : M unit :=
  fun w =>
    if isdir os dir then
      (Ok tt, {| cwd := dir; trace := trace w ++ [Chdir dir] |})
    else (Raise (EnvError "OSError"), w).

(** ** The Wrapper class *)

Section Wrapper.

Variables Raw Res : Type.

(** An instance of a subclass of [Wrapper]: the class attributes [program]
    and [options], what [__init__] stores, and the methods a subclass
    defines or overrides. *)
Record Wrapper : Type := {
  program : option string;
  options : Schema;
  _filename : option string;
  _base : option string;
  _time : Z;
  validate_input : Raw -> bool;
  input_file : Raw -> Outcome string;
  stdin : string -> Raw -> Options -> Outcome (option string);
  _program_failed_ : Process -> PyVal;
  results : Process -> string -> option string -> Outcome Res
}.

(** The bodies the base class gives to the methods that are not abstract
    (lines 118-123, 194-198). *)
Definition default_validate_input : Raw -> bool := fun _ => true.

Definition default_stdin : string -> Raw -> Options -> Outcome (option string) :=
  fun _ _ _ => Done None.

Definition default_program_failed : Process -> PyVal :=
  fun _ => VBool false.

(** Wrapper.validate (lines 106-116). *)
Definition validate (self : Wrapper) (raw : Raw) (opts : Options)
  : Result bool :=
  if negb (validate_input self raw) then
    Raise (InvalidInputError "Input did not validate")
  else
    match validate_options (options self) opts with
    | Raise e => Raise e
    | Ok valid =>
        if negb valid then
          Raise (InvalidOptionError "Options did not validate")
        else Ok true
    end.

(** Lines 213-217: the directory to work in. *)
Definition temp_dir_of (self : Wrapper) (os : OS) : M string :=
  match _base self with
  | None | Some EmptyString =>
      dir <- of_outcome (mkdtemp os) ;;
      emit (Mkdtemp dir) ;;
      ret dir
  | Some dir => ret dir
  end.

(** Lines 221-223: [with open(self._filename, 'w') as input_file]; the file
    is closed whether the hook returns or raises. *)
Definition write_input_file (self : Wrapper) (os : OS) (raw : Raw)
  : M unit :=
  match _filename self with
  | None => ret tt
  | Some name =>
      dir <- getcwd ;;
      if can_open os dir name then
        emit (OpenWrite dir name) ;;
        match input_file self raw with
        | Done content =>
            emit (WriteFile name content) ;;
            emit (CloseFile name)
        | Fails msg =>
            emit (CloseFile name) ;;
            raise (EnvError msg)
        end
      else raise (EnvError "IOError")
  end.

(** Lines 225-240: the argument list, the process and its standard input.
    Lines 236-237 keep the two streams on [self]; the call does not read
    them back, and they stay with the process here. *)
Definition spawn (self : Wrapper) (os : OS) (prog : string)
    (temp_dir : string) (raw : Raw) (opts : Options) : M Process :=
  let arguments := [VStr prog] in
  let args := generate_program_arguments (_filename self) opts in
  let arguments :=
    match args with _ :: _ => arguments ++ args | [] => arguments end in
  content <- of_outcome (stdin self temp_dir raw opts) ;;
  let stdin_pipe := match content with Some _ => true | None => false end in
  process <- of_outcome (popen os arguments stdin_pipe) ;;
  emit (Spawn arguments stdin_pipe) ;;
  match content with
  | Some text =>
      of_outcome (stdin_write os process text) ;;
      emit (StdinWrite (pid process) text) ;;
      ret process
  | None => ret process
  end.

(** Lines 213-246: from the working directory to the return to the
    directory of the caller.  The result is the working directory, the
    process, and whether [select] found anything ready. *)
Definition supervise (self : Wrapper) (os : OS) (prog : string)
    (raw : Raw) (opts : Options) : M (string * Process * bool) :=
  temp_dir <- temp_dir_of self os ;;
  cur_dir <- getcwd ;;
  chdir os temp_dir ;;
  write_input_file self os raw ;;
  process <- spawn self os prog temp_dir raw opts ;;
  ready <- of_outcome (select os process (_time self)) ;;
  emit (Select (pid process) (_time self)) ;;
  chdir os cur_dir ;;
  ret (temp_dir, process, ready).

(** [process.poll()]: the exit status, if there is one, is stored in
    [returncode]. *)
Definition polled (os : OS) (process : Process) : Process :=
  {| pid := pid process;
     proc_stdout := proc_stdout process;
     proc_stderr := proc_stderr process;
     returncode := exit_status os process |}.

Definition poll (os : OS) (process : Process) : M Process :=
  emit (Poll (pid process)) ;;
  ret (polled os process).

(** [code] as the object the source tests and formats. *)
Definition py_of_code (code : option Z) : PyVal :=
  match code with
  | Some z => VInt z
  | None => VNone
  end.

Definition timeout_message (prog : string) : string :=
  "Program " +++ prog +++ " timed out".

Definition failed_message (prog : string) (code : option Z)
    (error_message : PyVal) : string :=
  "Program " +++ prog +++ " failed. Status: " +++ py_str (py_of_code code)
  +++ ". Message: " +++ py_str error_message +++ ".".

(** Lines 248-263: what follows the wait.  [stdin] is [None] or the
    constant [PIPE], neither of which has a [close], so lines 248-249 do
    nothing. *)
Definition conclude (self : Wrapper) (os : OS) (prog : string)
    (temp_dir : string) (process : Process) (ready : bool) : M Res :=
  if negb ready then
    emit (Kill (pid process)) ;;
    raise (ProgramTimeOutError (timeout_message prog))
  else
    process <- poll os process ;;
    let code := returncode process in
    let error_message := _program_failed_ self process in
    if truthy (py_of_code code) || truthy error_message then
      raise (ProgramFailedError (failed_message prog code error_message))
    else
      of_outcome (results self process temp_dir (_filename self)).

(** [options or {}] (line 209). *)
Definition or_empty (opts : option Options) : Options :=
  match opts with
  | Some ((_ :: _) as d) => d
  | _ => []
  end.

(** Wrapper.__call__ (lines 200-263). *)
Definition call (self : Wrapper) (os : OS) (raw : Raw)
    (opts : option Options) : M Res :=
  match program self with
  | None | Some EmptyString =>
      raise (ValueError "Must define a program to run.")
  | Some prog =>
      let opts := or_empty opts in
      valid <- of_result (validate self raw opts) ;;
      if negb valid then
        raise (ValueError "Could not validate options and input")
      else
        '(temp_dir, process, ready) <- supervise self os prog raw opts ;;
        conclude self os prog temp_dir process ready
  end.

End Wrapper.

Arguments default_validate_input {Raw} _.
Arguments default_stdin {Raw} _ _ _.

(** ** A concrete tool

    A subclass in the style the class is written for, and an operating
    system in which every call succeeds; [ready] is what [select] reports
    and [status] the exit status [poll] finds. *)

Definition fold_schema : Schema :=
  [("T", is_in [VStr "25"; VStr "37"]); ("noPS", is_true); ("p", is_number)].

Definition fold_tool : Wrapper string string :=
  {| program := Some "RNAfold";
     options := fold_schema;
     _filename := Some "in.fa";
     _base := Some "/tmp/work";
     _time := 120;
     validate_input := default_validate_input;
     input_file := fun raw => Done raw;
     stdin := default_stdin;
     _program_failed_ := default_program_failed;
     results := fun process _ _ => Done (proc_stdout process) |}.

(** The same tool with an input writer that raises. *)
Definition broken_tool : Wrapper string string :=
  {| program := program fold_tool;
     options := options fold_tool;
     _filename := _filename fold_tool;
     _base := _base fold_tool;
     _time := _time fold_tool;
     validate_input := validate_input fold_tool;
     input_file := fun _ => Fails "IOError";
     stdin := stdin fold_tool;
     _program_failed_ := _program_failed_ fold_tool;
     results := results fold_tool |}.

Definition fold_process : Process :=
  {| pid := 7; proc_stdout := "((..))"; proc_stderr := ""; returncode := None |}.

Definition quiet_os (ready : bool) (status : option Z) : OS :=
  {| mkdtemp := Done "/tmp/tmpa1";
     isdir := fun _ => true;
     can_open := fun _ _ => true;
     popen := fun _ _ => Done fold_process;
     stdin_write := fun _ _ => Done tt;
     select := fun _ _ => Done ready;
     exit_status := fun _ => status |}.

Definition home : World := {| cwd := "/home/user"; trace := [] |}.

(** The tool fed on its standard input as well, in a directory the wrapper
    makes. *)
Definition feed_tool : Wrapper string string :=
  {| program := program fold_tool;
     options := options fold_tool;
     _filename := _filename fold_tool;
     _base := None;
     _time := _time fold_tool;
     validate_input := validate_input fold_tool;
     input_file := input_file fold_tool;
     stdin := fun _ raw _ => Done (Some raw);
     _program_failed_ := _program_failed_ fold_tool;
     results := results fold_tool |}.

(** An operating system whose [Popen] takes strings only. *)
Definition strict_os : OS :=
  {| mkdtemp := Done "/tmp/tmpa1";
     isdir := fun _ => true;
     can_open := fun _ _ => true;
     popen := fun arguments _ =>
                if forallb (fun a => match a with VStr _ => true | _ => false end)
                     arguments
                then Done fold_process else Fails "TypeError";
     stdin_write := fun _ _ => Done tt;
     select := fun _ _ => Done true;
     exit_status := fun _ => Some 0%Z |}.

(** A tool without an input file. *)
Definition pipe_tool : Wrapper string string :=
  {| program := Some "RNAplfold";
     options := fold_schema;
     _filename := None;
     _base := None;
     _time := 30;
     validate_input := default_validate_input;
     input_file := fun raw => Done raw;
     stdin := fun _ raw _ => Done (Some raw);
     _program_failed_ := default_program_failed;
     results := fun process _ _ => Done (proc_stdout process) |}.

(** * rnastructure.util.unit_ids: identifiers of units

    The generators and parsers of [src/rnastructure/util/unit_ids.py] for
    unit, nucleotide and Matlab identifiers.  (The two DSSR classes are not
    modelled: [DssrIdGenerator.__init__] calls [super] on the parser class
    and cannot build an instance, and [DssrIdParser] matches the names of
    residues as regular expressions.) *)

(** ** Strings as the module uses them *)

(** [s.split(sep)] for a separator of one character. *)
Fixpoint split_on (sep : ascii) (s : string) : list string :=
  match s with
  | EmptyString => [EmptyString]
  | String c rest =>
      if Ascii.eqb c sep then EmptyString :: split_on sep rest
      else match split_on sep rest with
           | part :: parts => String c part :: parts
           | [] => [String c EmptyString]
           end
  end.

(** [s.upper()], on the letters of ASCII. *)
Definition upper_char (c : ascii) : ascii :=
  let n := nat_of_ascii c in
  if ((97 <=? n) && (n <=? 122))%nat then ascii_of_nat (n - 32) else c.

Fixpoint upper (s : string) : string :=
  match s with
  | EmptyString => EmptyString
  | String c rest => String (upper_char c) (upper rest)
  end.

(** The characters [s.strip()] removes: space, tab, line feed, carriage
    return, vertical tab, form feed. *)
Definition is_space (c : ascii) : bool :=
  let n := nat_of_ascii c in
  ((n =? 32) || ((9 <=? n) && (n <=? 13)))%nat.

Fixpoint lstrip (s : string) : string :=
  match s with
  | EmptyString => EmptyString
  | String c rest => if is_space c then lstrip rest else s
  end.

Fixpoint rstrip (s : string) : string :=
  match s with
  | EmptyString => EmptyString
  | String c rest =>
      match rstrip rest with
      | EmptyString => if is_space c then EmptyString else String c EmptyString
      | kept => String c kept
      end
  end.

Definition strip (s : string) : string := rstrip (lstrip s).

(** [re.match('\d', c)] on one character. *)
Definition is_digit (c : ascii) : bool :=
  let n := nat_of_ascii c in ((48 <=? n) && (n <=? 57))%nat.

(** [s[-1]] and [s[:-1]]. *)
Fixpoint last_char (s : string) : option ascii :=
  match s with
  | EmptyString => None
  | String c EmptyString => Some c
  | String _ rest => last_char rest
  end.

Fixpoint but_last (s : string) : string :=
  match s with
  | EmptyString => EmptyString
  | String _ EmptyString => EmptyString
  | String c rest => String c (but_last rest)
  end.

(** [d[key] = v]. *)
Fixpoint dict_set {V} (key : string) (v : V) (d : Dict V) : Dict V :=
  match d with
  | [] => [(key, v)]
  | (k, x) :: rest =>
      if k =? key then (k, v) :: rest else (k, x) :: dict_set key v rest
  end.

(** [d.update(other)]. *)
Definition dict_update {V} (d other : Dict V) : Dict V :=
  fold_left (fun acc item => dict_set (fst item) (snd item) acc) other d.

(** ** The configurations (lines 3-27) *)

Inductive Separator : Type :=
| Sep (s : string)
| Sep3 (a b c : string).

Record IdConfig : Type := {
  cfg_fragments : list string;
  cfg_separator : Separator;
  cfg_required : list string
}.

Definition UNIT_ID : IdConfig :=
  {| cfg_fragments := ["pdb"; "model"; "chain"; "residue"; "number";
                       "atom_name"; "alt_id"; "insertion_code";
                       "symmetry_operator"];
     cfg_separator := Sep "|";
     cfg_required := ["pdb"] |}.

Definition NUCLEOTIDE_ID : IdConfig :=
  {| cfg_fragments := ["pdb"; "type"; "model"; "chain"; "number"; "residue";
                       "insertion_code"];
     cfg_separator := Sep "_";
     cfg_required := ["pdb"; "type"; "model"; "chain"; "number"; "residue"] |}.

Definition MATLAB_ID : IdConfig :=
  {| cfg_fragments := ["chain"; "residue"; "number"; "insertion_code"];
     cfg_separator := Sep3 ":" "" "";
     cfg_required := ["chain"; "residue"; "number"] |}.

(** ** Exceptions of the module *)

Inductive IdError : Type :=
| MissingRequiredFragment (msg : string)
| InvalidUnitType (msg : string)
| IndexError
| KeyError (key : string)
| TypeError
| AttributeError.

Inductive Try (A : Type) : Type :=
| Got (a : A)
| Thrown (e : IdError).
Arguments Got {A} a.
Arguments Thrown {A} e.

Definition and_then {A B} (t : Try A) (k : A -> Try B) : Try B :=
  match t with
  | Got a => k a
  | Thrown e => Thrown e
  end.

Notation "'try' x := t 'in' k" := (and_then t (fun x => k))
  (at level 10, x name, t at level 200, k at level 200).

(** ** GenericIdGenerator (lines 57-106) *)

(** A lookup is called as [func(obj, **kwargs)]. *)
Definition Lookup : Type := Options -> Options -> PyVal.

Record GenericIdGenerator : Type := {
  _config : IdConfig;
  _lookups : Dict Lookup
}.

(** [__init__] and [lookup]. *)
Definition new_generator (config : IdConfig) : GenericIdGenerator :=
  {| _config := config; _lookups := [] |}.

Definition lookup (self : GenericIdGenerator) (name : string) (func : Lookup)
  : GenericIdGenerator :=
  {| _config := _config self;
     _lookups := dict_set name func (_lookups self) |}.

(** [insertion_code] (lines 63-69).  [strip] is a method of strings: a true
    value of another type raises [AttributeError]. *)
Definition insertion_code (data : Options) : Try (option string) :=
  match get "insertion_code" data with
  | None => Got None
  | Some code =>
      if py_eq code (VStr "?") || negb (truthy code) then Got None
      else
        match code with
        | VStr s =>
            if negb (truthy (VStr (strip s))) then Got None
            else Got (Some (strip s))
        | _ => Thrown AttributeError
        end
  end.

(** [check_required] (lines 97-103). *)
Fixpoint check_required_loop (required : list string) (data : Options)
  : Try bool :=
  match required with
  | [] => Got true
  | name :: rest =>
      match get name data with
      | None | Some VNone =>
          Thrown (MissingRequiredFragment ("Missing required " +++ name))
      | Some v =>
          if py_eq v (VStr "") then
            Thrown (MissingRequiredFragment ("Given empty " +++ name))
          else check_required_loop rest data
      end
  end.

Definition check_required (self : GenericIdGenerator) (data : Options)
  : Try bool :=
  check_required_loop (cfg_required (_config self)) data.

(** Lines 73-79: the value a fragment gets in [merged]. *)
Definition merged_value (self : GenericIdGenerator) (obj kwargs : Options)
    (fragment : string) : PyVal :=
  match get fragment obj with
  | Some v => v
  | None =>
      match get fragment (_lookups self) with
      | Some func => func obj kwargs
      | None =>
          match get fragment kwargs with
          | Some v => v
          | None => VNone
          end
      end
  end.

Definition merge (self : GenericIdGenerator) (obj kwargs : Options)
  : Options :=
  fold_left
    (fun merged fragment =>
       dict_set fragment (merged_value self obj kwargs fragment) merged)
    (cfg_fragments (_config self)) [].

(** Lines 83-94: one turn of the loop that fills [data]. *)
Definition fragment_text (merged : Options) (fragment : string)
  : Try (option string) :=
  if fragment =? "insertion_code" then insertion_code merged
  else
    match get fragment merged with
    | None => Got None
    | Some VNone => Got None
    | Some v =>
        let value := py_str v in
        let value := if fragment =? "pdb" then upper value else value in
        Got (Some value)
    end.

Fixpoint fragment_texts (merged : Options) (names : list string)
  : Try (list (option string)) :=
  match names with
  | [] => Got []
  | fragment :: rest =>
      try item := fragment_text merged fragment in
      try items := fragment_texts merged rest in
      Got (item :: items)
  end.

(** [fragments] (lines 71-95). *)
Definition fragments (self : GenericIdGenerator) (obj kwargs : Options)
  : Try (list (option string)) :=
  let merged := merge self obj kwargs in
  try _ok := check_required self merged in
  fragment_texts merged (cfg_fragments (_config self)).

(** ** UnitIdGenerator (lines 109-140) *)

(** [bool(d)] and [d or ''] for an entry of [data]. *)
Definition is_set (d : option string) : bool :=
  match d with
  | Some s => negb (s =? "")
  | None => false
  end.

Definition or_blank (d : option string) : string :=
  match d with
  | Some s => s
  | None => ""
  end.

(** Lines 128-129, [while data[-1] is None: data = data[:-1]], read from the
    end of the list: [data[-1]] of the empty list raises [IndexError]. *)
Fixpoint drop_leading_none (reversed : list (option string))
  : Try (list (option string)) :=
  match reversed with
  | [] => Thrown IndexError
  | None :: rest => drop_leading_none rest
  | Some _ :: _ => Got reversed
  end.

Definition trim_trailing_none (data : list (option string))
  : Try (list (option string)) :=
  try kept := drop_leading_none (rev data) in Got (rev kept).

(** Lines 133-136: the check of the first three entries. *)
Fixpoint check_leading (index : nat) (data : list (option string))
  : Try unit :=
  match data with
  | [] => Got tt
  | fragment :: rest =>
      match fragment with
      | None =>
          if (index <? 3)%nat then
            Thrown (MissingRequiredFragment
                      ("Missing required "
                       +++ nth index (cfg_fragments UNIT_ID) ""))
          else check_leading (S index) rest
      | Some _ => check_leading (S index) rest
      end
  end.

Definition item {A} (l : list A) (index : nat) : Try A :=
  match nth_error l index with
  | Some a => Got a
  | None => Thrown IndexError
  end.

Definition UnitIdGenerator : GenericIdGenerator := new_generator UNIT_ID.

(** [UnitIdGenerator.__call__(obj, short, **kwargs)]. *)
Definition unit_id (self : GenericIdGenerator) (obj : Options) (short : bool)
    (kwargs : Options) : Try string :=
  try data := fragments self obj kwargs in
  try residue := item data 3 in
  try number := item data 4 in
  if negb (Bool.eqb (is_set residue) (is_set number)) then
    Thrown (MissingRequiredFragment "Must set both residue level ids")
  else
    try data :=
      (if short then
         try symmetry := item (rev data) 0 in
         let data :=
           match symmetry with
           | None => removelast data
           | Some s => if s =? "1_555" then removelast data else data
           end in
         try data := trim_trailing_none data in
         try _ok := check_leading 0 data in
         Got data
       else Got data) in
    Got (String.concat "|" (map or_blank data)).

(** ** UnitIdParser (lines 143-151) *)

Fixpoint assign_parts (index : nat) (parts : list string) (data : Options)
  : Try Options :=
  match parts with
  | [] => Got data
  | part :: rest =>
      try name := item (cfg_fragments UNIT_ID) index in
      assign_parts (S index) rest (dict_set name (VStr part) data)
  end.

Definition UnitIdParser (unit_id : string) : Try Options :=
  let parts := split_on "|" unit_id in
  let data := map (fun name => (name, VNone)) (cfg_fragments UNIT_ID) in
  assign_parts 0 parts data.

(** ** The Matlab identifiers (lines 154-187, 281-315) *)

(** [s[0]] and [s[1:]]. *)
Definition first_char (s : string) : Try string :=
  match s with
  | EmptyString => Thrown IndexError
  | String c _ => Got (String c EmptyString)
  end.

Definition tail (s : string) : string :=
  match s with
  | EmptyString => EmptyString
  | String _ rest => rest
  end.

(** Lines 158-163 and 290-295: the number and the insertion code of the part
    after the colon. *)
Definition number_and_code (parts : list string)
  : Try (string * PyVal) :=
  try residue_number := item parts 1 in
  let number := tail residue_number in
  match last_char number with
  | None => Thrown IndexError
  | Some c =>
      if negb (is_digit c) then
        Got (but_last number, VStr (String c EmptyString))
      else Got (number, VNone)
  end.

(** [MatlabIdParser.__call__]. *)
Definition MatlabIdParser (matlab_id : string) (kwargs : Options)
  : Try Options :=
  let parts := split_on ":" matlab_id in
  try number_ins := number_and_code parts in
  let '(number, ins) := number_ins in
  try chain := item parts 0 in
  try residue_number := item parts 1 in
  try residue := first_char residue_number in
  let data := [("model", VInt 1); ("chain", VStr chain);
               ("residue", VStr residue); ("number", VStr number);
               ("insertion_code", ins)] in
  Got (dict_update data kwargs).

Definition MatlabIdGenerator : GenericIdGenerator := new_generator MATLAB_ID.

(** [''.join(items)] and [sep.join(items)] on a list that may hold [None]:
    an item that is not a string raises [TypeError]. *)
Fixpoint all_text (items : list (option string)) : Try (list string) :=
  match items with
  | [] => Got []
  | None :: _ => Thrown TypeError
  | Some s :: rest => try texts := all_text rest in Got (s :: texts)
  end.

(** [MatlabIdGenerator.__call__]. *)
Definition matlab_id (self : GenericIdGenerator) (data kwargs : Options)
  : Try string :=
  try raw := fragments self data kwargs in
  try last := item (rev raw) 0 in
  let raw := match last with None => removelast raw | Some _ => raw end in
  match raw with
  | [] => Thrown IndexError
  | chain :: raw =>
      try rest := all_text raw in
      try both := all_text [chain; Some (String.concat "" rest)] in
      Got (String.concat ":" both)
  end.

(** [matlab_id_as_unit_id]. *)
Definition matlab_id_as_unit_id (pdb : PyVal) (matlab_id : string)
    (kwargs : Options) : Try string :=
  let generator := UnitIdGenerator in
  let parts := split_on ":" matlab_id in
  try number_ins := number_and_code parts in
  let '(number, ins) := number_ins in
  try chain := item parts 0 in
  try residue_number := item parts 1 in
  try residue := first_char residue_number in
  let data := [("pdb", pdb); ("model", VInt 1); ("chain", VStr chain);
               ("residue", VStr residue); ("number", VStr number);
               ("insertion_code", ins)] in
  unit_id generator (dict_update data kwargs) true [].

(** [as_matlab_id]: [data[key]] of the parsed dictionary, then the two
    joins. *)
Definition field (data : Options) (key : string) : Try PyVal :=
  match get key data with
  | Some v => Got v
  | None => Thrown (KeyError key)
  end.

Definition as_matlab_id (unit_id : string) : Try string :=
  try data := UnitIdParser unit_id in
  try residue := field data "residue" in
  try number := field data "number" in
  try ins := field data "insertion_code" in
  try chain := field data "chain" in
  let ins := if truthy ins then ins else VStr "" in
  try residue :=
    all_text (map (fun v => match v with VStr t => Some t | _ => None end)
                [residue; VStr (py_str number); ins]) in
  Got (py_str chain +++ ":" +++ String.concat "" residue).

(** ** The nucleotide identifiers (lines 190-207) *)

(** [NucleotideIdParser.__call__]: [dict(zip(fragments, parts))]. *)
Definition NucleotideIdParser (nt_id : string) : Try Options :=
  let parts := split_on "_" nt_id in
  let data := fold_left (fun d kv => dict_set (fst kv) (VStr (snd kv)) d)
                (combine (cfg_fragments NUCLEOTIDE_ID) parts) [] in
  try code := field data "insertion_code" in
  if py_eq code (VStr "") then Got (dict_set "insertion_code" VNone data)
  else Got data.

Definition NucleotideIdGenerator : GenericIdGenerator :=
  new_generator NUCLEOTIDE_ID.

(** [l[-1] = v]. *)
Definition set_last {A} (l : list A) (v : A) : Try (list A) :=
  match l with
  | [] => Thrown IndexError
  | _ => Got (removelast l ++ [v])
  end.

(** [NucleotideIdGenerator.__call__]. *)
Definition nucleotide_id (self : GenericIdGenerator) (data kwargs : Options)
  : Try string :=
  try frags := fragments self data kwargs in
  try last := item (rev frags) 0 in
  try frags :=
    match last with
    | None => set_last frags (Some "")
    | Some _ => Got frags
    end in
  try texts := all_text frags in
  Got (String.concat "_" texts).

(** ** generate_converter (lines 318-342) *)

(** [del d[key]]. *)
Fixpoint dict_remove {V} (key : string) (d : Dict V) : Dict V :=
  match d with
  | [] => []
  | (k, x) :: rest =>
      if k =? key then dict_remove key rest else (k, x) :: dict_remove key rest
  end.

(** [writer(obj, **kwargs)] for a unit writer: a keyword [short] is the
    parameter [short] of [UnitIdGenerator.__call__], the rest is its
    [kwargs]. *)
Definition unit_writer (obj kwargs : Options) : Try string :=
  let short :=
    match get "short" kwargs with
    | Some v => truthy v
    | None => true
    end in
  unit_id UnitIdGenerator obj short (dict_remove "short" kwargs).

Definition Converter : Type := string -> Options -> Try string.

Definition generate_converter (input_type output_type : string)
  : Try Converter :=
  try parser :=
    (if input_type =? "unit" then Got UnitIdParser
     else if input_type =? "matlab" then
       Got (fun text => MatlabIdParser text [])
     else if (input_type =? "nucleotide") || (input_type =? "old")
             || (input_type =? "nt") then Got NucleotideIdParser
     else Thrown (InvalidUnitType
                    ("Input type " +++ input_type +++ " is unknown"))) in
  try writer :=
    (if output_type =? "unit" then Got unit_writer
     else if output_type =? "matlab" then Got (matlab_id MatlabIdGenerator)
     else if (output_type =? "nucleotide") || (output_type =? "old")
             || (input_type =? "nt") then
       Got (nucleotide_id NucleotideIdGenerator)
     else Thrown (InvalidUnitType
                    ("Output type " +++ output_type +++ " is unknown"))) in
  Got (fun text kwargs => try obj := parser text in writer obj kwargs).

(** ** Vocabulary of the statements *)

(** A key of the options that the schema does not declare. *)
Definition unknown_in (schema : Schema) (key : string) : bool :=
  negb (mem key (keys schema)).

(** The text of an [UnknownOptionError] for the given keys (line 139). *)
Definition unknown_message (extra_keys : list string) : string :=
  "Options: " +++ String.concat ", " extra_keys +++ " are unknown.".

(** The flag token the loop of [generate_options] makes for one option
    (lines 186-189), and all the tokens of that option. *)
Definition flag_token (key : string) (value : PyVal) : string :=
  (if (String.length key =? 1)%nat then "-" else "--") +++ py_str value.

Definition option_tokens (item : string * PyVal) : list PyVal :=
  let '(key, value) := item in
  VStr (flag_token key value)
  :: match value with
     | VBool true => []
     | _ => [value]
     end.

(** Lines 213-245 of [__call__]: the supervised run up to and with the
    wait, before the return to the directory of the caller (line 246).  The
    result is the working directory, the directory of the caller, the
    process, and whether [select] found anything ready. *)
Definition run_to_wait {Raw Res} (self : Wrapper Raw Res) (os : OS)
    (prog : string) (raw : Raw) (opts : Options)
  : M (string * string * Process * bool) :=
  temp_dir <- temp_dir_of self os ;;
  cur_dir <- getcwd ;;
  chdir os temp_dir ;;
  write_input_file self os raw ;;
  process <- spawn self os prog temp_dir raw opts ;;
  ready <- of_outcome (select os process (_time self)) ;;
  emit (Select (pid process) (_time self)) ;;
  ret (temp_dir, cur_dir, process, ready).




(** A computation that raises nothing but what the system or a hook
    raises. *)
Definition env_only {A} (m : M A) : Prop :=
  forall w, match m w with
            | (Ok _, _) => True
            | (Raise e, _) => exists msg, e = EnvError msg
            end.

(** A computation that, when it returns, has [dir] as current directory. *)
Definition lands_in {A} (dir : string) (m : M A) : Prop :=
  forall w a w', m w = (Ok a, w') -> cwd w' = dir.

(** A computation that leaves the current directory alone. *)
Definition keeps_cwd {A} (m : M A) : Prop :=
  forall w r w', m w = (r, w') -> cwd w' = cwd w.

(** The exits of a call on which no exception of the system or of a hook
    is in flight. *)
Definition env_error {A} (r : Result A) : bool :=
  match r with
  | Raise (EnvError _) => true
  | _ => false
  end.

(** A computation whose effects, whatever its outcome, are a list of events
    with the property [Q]. *)
Definition emits {A} (Q : list Event -> Prop) (m : M A) : Prop :=
  forall w, exists evs, trace (snd (m w)) = trace w ++ evs /\ Q evs.

(** A property of effects that holds of no effect and of one run after
    another. *)
Class Additive (Q : list Event -> Prop) : Prop := {
  additive_nil : Q [];
  additive_app : forall xs ys, Q xs -> Q ys -> Q (xs ++ ys)
}.

(** No event of the kind [f] among [evs]. *)
Definition avoids (f : Event -> bool) (evs : list Event) : Prop :=
  forallb (fun ev => negb (f ev)) evs = true.

Definition is_kill (ev : Event) : bool :=
  match ev with Kill _ => true | _ => false end.

Definition is_mkdtemp (ev : Event) : bool :=
  match ev with Mkdtemp _ => true | _ => false end.

Definition is_file_event (ev : Event) : bool :=
  match ev with
  | OpenWrite _ _ | WriteFile _ _ | CloseFile _ => true
  | _ => false
  end.

Definition is_close_of (name : string) (ev : Event) : bool :=
  match ev with CloseFile n => n =? name | _ => false end.

(** Every file that is opened is closed later on. *)
Fixpoint every_open_closed (evs : list Event) : bool :=
  match evs with
  | [] => true
  | OpenWrite _ name :: rest =>
      existsb (is_close_of name) rest && every_open_closed rest
  | _ :: rest => every_open_closed rest
  end.

(** The events of the three optional steps of a supervised run that
    returns: making the directory, writing the input file, feeding the
    standard input. *)
Definition dir_events {Raw Res} (self : Wrapper Raw Res) (temp_dir : string)
  : list Event :=
  match _base self with
  | None | Some EmptyString => [Mkdtemp temp_dir]
  | Some _ => []
  end.

Definition file_events {Raw Res} (self : Wrapper Raw Res) (raw : Raw)
    (temp_dir : string) : list Event :=
  match _filename self, input_file self raw with
  | Some name, Done content =>
      [OpenWrite temp_dir name; WriteFile name content; CloseFile name]
  | _, _ => []
  end.

Definition stdin_events (process : Process) (content : option string)
  : list Event :=
  match content with
  | Some text => [StdinWrite (pid process) text]
  | None => []
  end.

Definition has_content (content : option string) : bool :=
  match content with Some _ => true | None => false end.

(** The character [c] occurs in [s]. *)
Fixpoint mentions (c : ascii) (s : string) : bool :=
  match s with
  | EmptyString => false
  | String d rest => Ascii.eqb d c || mentions c rest
  end.

(** An insertion code that [insertion_code] keeps as it is: not empty, not
    the placeholder [?], without white space around it. *)
Definition plain_code (code : string) : Prop :=
  code <> "" /\ code <> "?" /\ strip code = code.

(** The dictionary [UnitIdParser] makes of the parts of an identifier. *)
Definition part_value (parts : list string) (index : nat) : PyVal :=
  match nth_error parts index with
  | Some part => VStr part
  | None => VNone
  end.

(** * Properties *)

(** ** Strings *)

Lemma prefix_app_l (k s t : string) :
  prefix k s = true -> prefix k (s +++ t) = true.
Proof.
  revert s; induction k as [|c k IH]; intros s H.
  - destruct (s +++ t); reflexivity.
  - destruct s as [|d s]; simpl in *; [discriminate|].
    destruct (ascii_dec c d); [now apply IH | discriminate].
Qed.

Lemma contains_String (k : string) (c : ascii) (s : string) :
  contains k (String c s) = prefix k (String c s) || contains k s.
Proof. reflexivity. Qed.

Lemma contains_of_prefix (k s : string) :
  prefix k s = true -> contains k s = true.
Proof.
  destruct s as [|c s]; intros H; [exact H|].
  now rewrite contains_String, H.
Qed.

Lemma contains_app_r (k s t : string) :
  contains k t = true -> contains k (s +++ t) = true.
Proof.
  intros H; induction s as [|c s IH]; [exact H|].
  change (String c s +++ t) with (String c (s +++ t)).
  rewrite contains_String, IH; apply orb_true_r.
Qed.

Lemma contains_app_l (k s t : string) :
  contains k s = true -> contains k (s +++ t) = true.
Proof.
  induction s as [|c s IH]; intros H.
  - apply contains_of_prefix.
    change t with (EmptyString +++ t); now apply prefix_app_l.
  - rewrite contains_String in H.
    change (String c s +++ t) with (String c (s +++ t)).
    rewrite contains_String.
    apply orb_true_iff in H as [H|H].
    + change (String c (s +++ t)) with (String c s +++ t).
      now rewrite (prefix_app_l _ _ t H).
    + rewrite (IH H); apply orb_true_r.
Qed.

Lemma contains_refl (k : string) : contains k k = true.
Proof.
  apply contains_of_prefix.
  induction k as [|c k IH]; simpl; [reflexivity|].
  destruct (ascii_dec c c) as [_|n]; [exact IH | now destruct n].
Qed.

(** A text is found in whatever is formatted around it. *)
Lemma contains_mid (k s t : string) : contains k (s +++ k +++ t) = true.
Proof. apply contains_app_r, contains_app_l, contains_refl. Qed.

Lemma contains_concat (sep k : string) (l : list string) :
  In k l -> contains k (String.concat sep l) = true.
Proof.
  induction l as [|x l IH]; intros H; [contradiction|].
  destruct l as [|y l].
  - destruct H as [->|[]]; apply contains_refl.
  - change (String.concat sep (x :: y :: l))
      with (x +++ sep +++ String.concat sep (y :: l)).
    destruct H as [->|H].
    + apply contains_app_l, contains_refl.
    + apply contains_app_r, contains_app_r, IH, H.
Qed.

(** ** The validators *)

(** C8: the numeric-option validator rejects every value: [is_number]
    returns [False] whatever its argument is. *)
Theorem is_number_rejects_every_value :
  forall arg : PyVal, is_number arg = false.
Proof. intros arg; destruct arg; reflexivity. Qed.

(** So an option declared with [is_number] cannot be given at all. *)
Lemma numeric_option_never_valid (schema : Schema) (opts : Options)
    (key : string) :
  check_patterns ((key, is_number) :: schema) opts <> Ok true
  \/ get key opts = None.
Proof.
  simpl; destruct (get key opts); [left; discriminate | now right].
Qed.

Lemma is_true_spec (arg : PyVal) : is_true arg = true <-> arg = VBool true.
Proof.
  split; [|now intros ->].
  destruct arg as [|[|]| |]; simpl; intros H; try discriminate; reflexivity.
Qed.

(** ** validate_options *)

(** The collecting loop is a filter that keeps the order of the keys. *)
Lemma extra_keys_loop (known : list string) (ks acc : list string) :
  fold_left
    (fun extra_keys key =>
       if negb (mem key known) then extra_keys ++ [key] else extra_keys)
    ks acc
  = acc ++ filter (fun key => negb (mem key known)) ks.
Proof.
  revert acc; induction ks as [|k ks IH]; intros acc; simpl.
  - now rewrite app_nil_r.
  - rewrite IH; destruct (negb (mem k known)); [|reflexivity].
    now rewrite <- app_assoc.
Qed.

Lemma extra_keys_of_filter (schema : Schema) (opts : Options) :
  extra_keys_of (keys schema) opts = filter (unknown_in schema) (keys opts).
Proof. unfold extra_keys_of; now rewrite extra_keys_loop. Qed.

Lemma validate_options_unknown (schema : Schema) (opts : Options)
    (key : string) :
  In key (keys opts) -> mem key (keys schema) = false ->
  validate_options schema opts
  = Raise (UnknownOptionError
             (unknown_message (filter (unknown_in schema) (keys opts)))).
Proof.
  intros Hin Hmem; unfold validate_options.
  rewrite extra_keys_of_filter.
  assert (In key (filter (unknown_in schema) (keys opts))) as H.
  { apply filter_In; split; [exact Hin|]. unfold unknown_in; now rewrite Hmem. }
  destruct (filter (unknown_in schema) (keys opts)); [contradiction|reflexivity].
Qed.

(** C6: when the options hold a key the schema does not declare,
    [validate_options] raises [UnknownOptionError], and its message is built
    from all the undeclared keys, in the order of the options: every one of
    them is named in it, not only the first. *)
Theorem unknown_option_error_lists_every_key
    (schema : Schema) (opts : Options) :
  (exists key, In key (keys opts) /\ mem key (keys schema) = false) ->
  let extra_keys := filter (unknown_in schema) (keys opts) in
  validate_options schema opts
  = Raise (UnknownOptionError (unknown_message extra_keys))
  /\ (forall key, In key extra_keys <->
                  In key (keys opts) /\ mem key (keys schema) = false)
  /\ (forall key, In key (keys opts) -> mem key (keys schema) = false ->
                  contains key (unknown_message extra_keys) = true).
Proof.
  intros [key [Hin Hmem]] extra_keys; split; [|split].
  - now apply validate_options_unknown with key.
  - intros k; unfold extra_keys, unknown_in; rewrite filter_In.
    now rewrite negb_true_iff.
  - intros k Hk Hm; unfold unknown_message.
    apply contains_app_r, contains_app_l, contains_concat.
    apply filter_In; split; [exact Hk|]. unfold unknown_in; now rewrite Hm.
Qed.

(** C9: the check for unknown keys comes first: options that hold both a
    key absent from the schema and a declared key whose value its validator
    rejects make [validate_options] raise [UnknownOptionError], and not
    [InvalidOptionError]. *)
Theorem unknown_key_checked_before_values
    (schema : Schema) (opts : Options)
    (stray key : string) (pattern : PyVal -> bool) (value : PyVal) :
  In stray (keys opts) -> mem stray (keys schema) = false ->
  In (key, pattern) schema -> get key opts = Some value ->
  pattern value = false ->
  (exists msg, validate_options schema opts = Raise (UnknownOptionError msg))
  /\ (forall msg, validate_options schema opts
                  <> Raise (InvalidOptionError msg)).
Proof.
  intros Hin Hmem _ _ _.
  rewrite (validate_options_unknown schema opts stray Hin Hmem).
  split; [eexists; reflexivity | intros msg; discriminate].
Qed.

Lemma check_patterns_accepts (items : Schema) (opts : Options) :
  (forall key pattern value,
      In (key, pattern) items -> get key opts = Some value ->
      pattern value = true) ->
  check_patterns items opts = Ok true.
Proof.
  induction items as [|[key pattern] items IH]; intros H; simpl.
  - reflexivity.
  - destruct (get key opts) as [value|] eqn:E.
    + rewrite (H key pattern value (or_introl eq_refl) E); simpl.
      apply IH; intros k p v Hk; apply H; now right.
    + apply IH; intros k p v Hk; apply H; now right.
Qed.

(** C10: no option is required.  The validators run only on the schema
    keys the options hold, so options whose keys are all declared and whose
    values all pass their validators are accepted: [validate_options]
    returns [True]. *)
Theorem declared_valid_options_accepted (schema : Schema) (opts : Options) :
  (forall key, In key (keys opts) -> mem key (keys schema) = true) ->
  (forall key pattern value,
      In (key, pattern) schema -> get key opts = Some value ->
      pattern value = true) ->
  validate_options schema opts = Ok true.
Proof.
  intros Hkeys Hvalues; unfold validate_options.
  rewrite extra_keys_of_filter.
  assert (filter (unknown_in schema) (keys opts) = []) as ->.
  { induction (keys opts) as [|k ks IH]; [reflexivity|]; simpl.
    unfold unknown_in at 1; rewrite (Hkeys k (or_introl eq_refl)); simpl.
    apply IH; intros key Hk; apply Hkeys; now right. }
  now apply check_patterns_accepts.
Qed.

(** The empty mapping is such a mapping, whatever the schema. *)
Lemma empty_options_accepted (schema : Schema) :
  validate_options schema [] = Ok true.
Proof.
  unfold validate_options; simpl.
  apply check_patterns_accepts; intros key pattern value _ H; discriminate.
Qed.

(** ** generate_options *)

Lemma generate_option_tokens (opts : list PyVal) (item : string * PyVal) :
  generate_option opts item = opts ++ option_tokens item.
Proof.
  destruct item as [key value]; unfold generate_option, option_tokens.
  destruct value as [|[|]| |]; simpl; try rewrite <- app_assoc; reflexivity.
Qed.

Lemma generate_options_loop (items : Options) (opts : list PyVal) :
  fold_left generate_option items opts
  = opts ++ flat_map option_tokens items.
Proof.
  revert opts; induction items as [|item items IH]; intros opts; simpl.
  - now rewrite app_nil_r.
  - now rewrite IH, generate_option_tokens, <- app_assoc.
Qed.

Lemma generate_options_app (filename : option string) (xs ys : Options) :
  generate_options filename (xs ++ ys)
  = generate_options filename xs ++ generate_options filename ys.
Proof.
  unfold generate_options.
  now rewrite !generate_options_loop, flat_map_app.
Qed.

(** C7: for each option, the builder puts the value as an argument of its
    own right after the flag token, unless the value is the boolean [True],
    for which the flag token stands alone. *)
Theorem value_follows_flag_unless_true
    (filename : option string) (before after : Options)
    (key : string) (value : PyVal) :
  generate_options filename (before ++ (key, value) :: after)
  = generate_options filename before
    ++ VStr (flag_token key value)
       :: match value with
          | VBool true => []
          | _ => [value]
          end
    ++ generate_options filename after.
Proof.
  rewrite generate_options_app.
  change ((key, value) :: after) with ([(key, value)] ++ after).
  rewrite generate_options_app; f_equal.
  unfold generate_options at 1; simpl.
  destruct value as [|[|]| |]; reflexivity.
Qed.

(** C1 (the code at the input of the claim): for the one-character key
    [x] with the value ["5"], and for the long key [temp], the flag token
    is made from the value of the option and not from its name. *)
Theorem flag_token_formats_value :
  generate_options (Some "in.fa") [("x", VStr "5")] = [VStr "-5"; VStr "5"]
  /\ generate_options (Some "in.fa") [("temp", VStr "37")]
     = [VStr "--37"; VStr "37"]
  /\ generate_options (Some "in.fa") [("x", VStr "5")]
     <> [VStr "-x"; VStr "5"]
  /\ generate_options (Some "in.fa") [("temp", VStr "37")]
     <> [VStr "--temp"; VStr "37"].
Proof. repeat split; try reflexivity; discriminate. Qed.

(** ** The supervisor *)

Create HintDb env.

Section Supervisor.

Variables Raw Res : Type.
Variable self : Wrapper Raw Res.
Variable os : OS.

(** Once the program is set and the input valid, the call is the
    supervised run followed by its conclusion. *)
Lemma call_after_supervise (raw : Raw) (opts : option Options) (w w1 : World)
    (prog temp_dir : string) (process : Process) (ready : bool) :
  program self = Some prog -> prog <> "" ->
  validate self raw (or_empty opts) = Ok true ->
  supervise self os prog raw (or_empty opts) w
  = (Ok (temp_dir, process, ready), w1) ->
  call self os raw opts w = conclude self os prog temp_dir process ready w1.
Proof.
  intros Hprog Hne Hval Hsup; unfold call; rewrite Hprog.
  destruct prog as [|c prog']; [contradiction|].
  unfold bind at 1, of_result; rewrite Hval; simpl.
  unfold bind at 1; now rewrite Hsup.
Qed.

Lemma truthy_code (code : option Z) :
  truthy (py_of_code code) = true <-> exists z, code = Some z /\ z <> 0%Z.
Proof.
  destruct code as [z|]; simpl.
  - rewrite negb_true_iff, Z.eqb_neq; split.
    + intros H; now exists z.
    + now intros [z' [[= <-] H]].
  - split; [discriminate | now intros [z [H _]]].
Qed.

(** C5: when the raw input or the options do not validate, the call raises
    and the world is left as it was: no directory is made or entered, no
    file is opened, no process is started. *)
Theorem invalid_call_leaves_world_untouched
    (raw : Raw) (opts : option Options) (w : World) (e : exn) :
  validate self raw (or_empty opts) = Raise e ->
  call self os raw opts w
  = (Raise match program self with
           | None | Some EmptyString =>
               ValueError "Must define a program to run."
           | Some _ => e
           end, w).
Proof.
  intros Hval; unfold call.
  destruct (program self) as [[|c prog]|]; try reflexivity.
  unfold bind, of_result; now rewrite Hval.
Qed.

(** The supervised run is the run up to the wait and then the return to the
    directory of the caller. *)
Lemma supervise_of_wait (raw : Raw) (opts : Options) (prog : string)
    (w w1 : World) (temp_dir cur_dir : string) (process : Process)
    (ready : bool) :
  run_to_wait self os prog raw opts w
  = (Ok (temp_dir, cur_dir, process, ready), w1) ->
  isdir os cur_dir = true ->
  supervise self os prog raw opts w
  = (Ok (temp_dir, process, ready),
     {| cwd := cur_dir; trace := trace w1 ++ [Chdir cur_dir] |}).
Proof.
  unfold run_to_wait, supervise, bind, getcwd; intros Hwait Hdir.
  destruct (temp_dir_of self os w) as [[dir|e] w0]; [|discriminate].
  destruct (chdir os dir w0) as [[u|e] wa]; [|discriminate].
  destruct (write_input_file self os raw wa) as [[u'|e] wb]; [|discriminate].
  destruct (spawn self os prog dir raw opts wb) as [[p|e] wc]; [|discriminate].
  destruct (of_outcome (select os p (_time self)) wc) as [[r|e] wd];
    [|discriminate].
  unfold emit, ret in *; injection Hwait as <- <- <- <- <-.
  unfold chdir; simpl; now rewrite Hdir.
Qed.

(** When that return raises, its exception is the outcome of the call,
    whatever the wait found: nothing is polled and nothing killed. *)
Lemma call_without_return (raw : Raw) (opts : option Options) (w w1 : World)
    (prog temp_dir cur_dir : string) (process : Process) (ready : bool) :
  program self = Some prog -> prog <> "" ->
  validate self raw (or_empty opts) = Ok true ->
  run_to_wait self os prog raw (or_empty opts) w
  = (Ok (temp_dir, cur_dir, process, ready), w1) ->
  isdir os cur_dir = false ->
  call self os raw opts w = (Raise (EnvError "OSError"), w1).
Proof.
  intros Hprog Hne Hval Hwait Hdir; unfold call; rewrite Hprog.
  destruct prog as [|c prog']; [contradiction|].
  unfold bind at 1, of_result; rewrite Hval; simpl.
  revert Hwait; unfold run_to_wait, supervise, bind, getcwd.
  destruct (temp_dir_of self os w) as [[dir|e] w0]; [|discriminate].
  destruct (chdir os dir w0) as [[u|e] wa]; [|discriminate].
  destruct (write_input_file self os raw wa) as [[u'|e] wb]; [|discriminate].
  destruct (spawn self os (String c prog') dir raw (or_empty opts) wb)
    as [[p|e] wc]; [|discriminate].
  destruct (of_outcome (select os p (_time self)) wc) as [[r|e] wd];
    [|discriminate].
  unfold emit, ret; intros [= <- <- <- <- <-].
  unfold chdir; simpl; now rewrite Hdir.
Qed.


(** C4, as the code has it: when the wait found nothing ready within the
    time allowed and the return to the directory of the caller went
    through, the process is killed and the call raises
    [ProgramTimeOutError]; the message is ["Program <program> timed out"],
    which names the program. *)
Theorem timed_out_call_kills_and_names_program
    (raw : Raw) (opts : option Options) (w w1 : World)
    (prog temp_dir cur_dir : string) (process : Process) :
  program self = Some prog -> prog <> "" ->
  validate self raw (or_empty opts) = Ok true ->
  run_to_wait self os prog raw (or_empty opts) w
  = (Ok (temp_dir, cur_dir, process, false), w1) ->
  isdir os cur_dir = true ->
  call self os raw opts w
  = (Raise (ProgramTimeOutError ("Program " +++ prog +++ " timed out")),
     {| cwd := cur_dir;
        trace := trace w1 ++ [Chdir cur_dir; Kill (pid process)] |})
  /\ contains prog ("Program " +++ prog +++ " timed out") = true.
Proof.
  intros Hprog Hne Hval Hwait Hdir.
  rewrite (@call_after_supervise raw opts w _ prog temp_dir process false
             Hprog Hne Hval (supervise_of_wait _ _ _ _ Hwait Hdir)).
  split; [|apply contains_mid].
  unfold conclude, bind, emit, raise; simpl; now rewrite <- app_assoc.
Qed.

(** *** The current directory *)

Lemma env_only_bind {A B} (m : M A) (k : A -> M B) :
  env_only m -> (forall a, env_only (k a)) -> env_only (bind m k).
Proof.
  intros Hm Hk w; unfold bind.
  specialize (Hm w); destruct (m w) as [[a|e] w1]; [apply Hk | exact Hm].
Qed.

Lemma env_only_ret {A} (a : A) : env_only (ret a).
Proof. intros w; exact I. Qed.

Lemma env_only_emit (ev : Event) : env_only (emit ev).
Proof. intros w; exact I. Qed.

Lemma env_only_getcwd : env_only getcwd.
Proof. intros w; exact I. Qed.

Lemma env_only_raise {A} (msg : string) : env_only (@raise A (EnvError msg)).
Proof. intros w; now exists msg. Qed.

Lemma env_only_of_outcome {A} (o : Outcome A) : env_only (of_outcome o).
Proof. destruct o; [apply env_only_ret | apply env_only_raise]. Qed.

Lemma env_only_chdir (dir : string) : env_only (chdir os dir).
Proof.
  intros w; unfold chdir; destruct (isdir os dir); [exact I|].
  now eexists.
Qed.

#[local] Hint Resolve env_only_ret env_only_emit env_only_getcwd
  env_only_raise env_only_of_outcome env_only_chdir : env.

Ltac env_steps :=
  repeat (apply env_only_bind; [auto with env | intros ?]); auto with env.

Lemma env_only_temp_dir_of : env_only (temp_dir_of self os).
Proof.
  unfold temp_dir_of; destruct (_base self) as [[|c d]|]; env_steps.
Qed.

Lemma env_only_write_input_file (raw : Raw) :
  env_only (write_input_file self os raw).
Proof.
  unfold write_input_file; destruct (_filename self) as [name|]; env_steps.
  destruct (can_open os _ name); env_steps.
  destruct (input_file self raw); env_steps.
Qed.

Lemma env_only_spawn (prog temp_dir : string) (raw : Raw) (opts : Options) :
  env_only (spawn self os prog temp_dir raw opts).
Proof.
  unfold spawn; env_steps.
  match goal with |- env_only (match ?c with _ => _ end) => destruct c end;
    env_steps.
Qed.

Lemma env_only_supervise (prog : string) (raw : Raw) (opts : Options) :
  env_only (supervise self os prog raw opts).
Proof.
  unfold supervise.
  apply env_only_bind; [apply env_only_temp_dir_of | intros temp_dir].
  apply env_only_bind; [apply env_only_getcwd | intros cur_dir].
  apply env_only_bind; [apply env_only_chdir | intros _].
  apply env_only_bind; [apply env_only_write_input_file | intros _].
  apply env_only_bind; [apply env_only_spawn | intros process].
  env_steps.
Qed.

Lemma lands_in_bind {A B} (dir : string) (m : M A) (k : A -> M B) :
  (forall a, lands_in dir (k a)) -> lands_in dir (bind m k).
Proof.
  intros Hk w b w'; unfold bind.
  destruct (m w) as [[a|e] w1]; [apply Hk | discriminate].
Qed.

Lemma lands_in_chdir_ret {A} (dir : string) (a : A) :
  lands_in dir (chdir os dir ;; ret a).
Proof.
  intros w b w'; unfold bind, chdir, ret.
  destruct (isdir os dir); [|discriminate].
  now intros [= _ <-].
Qed.

Lemma keeps_cwd_temp_dir_of : keeps_cwd (temp_dir_of self os).
Proof.
  intros w r w'; unfold temp_dir_of, bind, of_outcome, emit, ret, raise.
  destruct (_base self) as [[|c d]|]; try destruct (mkdtemp os);
    now intros [= _ <-].
Qed.

(** A supervised run that returns has put the directory of the caller
    back. *)
Lemma supervise_restores (prog : string) (raw : Raw) (opts : Options)
    (w w1 : World) (a : string * Process * bool) :
  supervise self os prog raw opts w = (Ok a, w1) -> cwd w1 = cwd w.
Proof.
  unfold supervise; unfold bind at 1.
  destruct (temp_dir_of self os w) as [[temp_dir|e] w0] eqn:Etemp;
    [|discriminate].
  apply keeps_cwd_temp_dir_of in Etemp; rewrite <- Etemp.
  unfold bind at 1, getcwd.
  apply lands_in_bind; intros _.
  apply lands_in_bind; intros _.
  apply lands_in_bind; intros process.
  apply lands_in_bind; intros ready.
  apply lands_in_bind; intros _.
  apply lands_in_chdir_ret.
Qed.

(** What follows the wait kills, polls and builds the result; none of it
    changes directory. *)
Lemma keeps_cwd_conclude (prog temp_dir : string) (process : Process)
    (ready : bool) :
  keeps_cwd (conclude self os prog temp_dir process ready).
Proof.
  intros w r w'.
  unfold conclude, poll, bind, emit, ret, raise, of_outcome; simpl.
  destruct ready; simpl; [|now intros [= _ <-]].
  destruct (truthy _ || truthy _); [now intros [= _ <-]|].
  destruct (results self _ temp_dir (_filename self)); now intros [= _ <-].
Qed.

(** C2, as the code has it: the current directory is the one of the caller
    again on every exit of the call other than an exception of the system
    or of a hook: on success, on [ProgramFailedError], on
    [ProgramTimeOutError] (and on the errors raised before the directory is
    entered). *)
Theorem cwd_restored_unless_env_error
    (raw : Raw) (opts : option Options) (w w' : World) (r : Result Res) :
  call self os raw opts w = (r, w') ->
  env_error r = false ->
  cwd w' = cwd w.
Proof.
  unfold call.
  destruct (program self) as [[|c prog]|]; try now intros [= _ <-].
  unfold bind at 1, of_result.
  destruct (validate self raw (or_empty opts)) as [[|]|e];
    try now intros [= _ <-].
  simpl; unfold bind at 1.
  pose proof (env_only_supervise (String c prog) raw (or_empty opts) w) as He.
  destruct (supervise self os (String c prog) raw (or_empty opts) w)
    as [[[[temp_dir process] ready]|e] w1] eqn:Esup.
  - intros Hc _; apply keeps_cwd_conclude in Hc.
    apply supervise_restores in Esup; congruence.
  - destruct He as [msg ->]; intros [= <- _]; discriminate.
Qed.

End Supervisor.

(** ** Concrete runs *)

(** C2, the claim as the specification words it fails: the tool whose input
    writer raises has entered [/tmp/work], and the exception leaves the
    call with the process still in that directory. *)
Lemma cwd_not_restored_when_input_writer_raises :
  call broken_tool (quiet_os true (Some 0%Z)) "GGGAAACCC" None home
  = (Raise (EnvError "IOError"),
     {| cwd := "/tmp/work";
        trace := [Chdir "/tmp/work"; OpenWrite "/tmp/work" "in.fa";
                  CloseFile "in.fa"] |})
  /\ cwd home = "/home/user"
  /\ ~ (forall (self : Wrapper string string) os raw opts w r w',
           call self os raw opts w = (r, w') -> cwd w' = cwd w).
Proof.
  split; [reflexivity | split; [reflexivity|]].
  intros H.
  specialize (H broken_tool (quiet_os true (Some 0%Z)) "GGGAAACCC" None home
                _ _ eq_refl).
  discriminate H.
Qed.

(** C4, the claim as the specification words it fails: with a budget of
    120 the message of the time-out is ["Program RNAfold timed out"], in
    which the budget does not occur. *)
Lemma timeout_message_omits_budget :
  fst (call fold_tool (quiet_os false None) "GGGAAACCC" None home)
  = Raise (ProgramTimeOutError "Program RNAfold timed out")
  /\ str_of_Z (_time fold_tool) = "120"
  /\ contains (str_of_Z (_time fold_tool)) "Program RNAfold timed out"
     = false.
Proof. repeat split; reflexivity. Qed.

Lemma cwd_restored_unless_env_error_witness :
  env_error (fst (call fold_tool (quiet_os false None) "GGGAAACCC" None home))
  = false
  /\ cwd (snd (call fold_tool (quiet_os false None) "GGGAAACCC" None home))
     = cwd home.
Proof.
  split; [reflexivity|].
  apply (@cwd_restored_unless_env_error _ _ fold_tool (quiet_os false None)
           "GGGAAACCC" None home _ _ (surjective_pairing _)).
  reflexivity.
Defined.



Lemma timed_out_call_witness :
  call fold_tool (quiet_os false None) "GGGAAACCC" None home
  = (Raise (ProgramTimeOutError "Program RNAfold timed out"),
     {| cwd := "/home/user";
        trace := [Chdir "/tmp/work"; OpenWrite "/tmp/work" "in.fa";
                  WriteFile "in.fa" "GGGAAACCC"; CloseFile "in.fa";
                  Spawn [VStr "RNAfold"; VStr "in.fa"] false;
                  Select 7 120; Chdir "/home/user"; Kill 7] |}).
Proof.
  assert ("RNAfold" <> "") as Hne by discriminate.
  apply (@timed_out_call_kills_and_names_program _ _
           fold_tool (quiet_os false None) "GGGAAACCC" None home
           _ "RNAfold" "/tmp/work" "/home/user" fold_process
           eq_refl Hne eq_refl eq_refl eq_refl).
Defined.

Lemma invalid_call_witness :
  validate fold_tool "GGGAAACCC" (or_empty (Some [("bogus", VStr "1")]))
  = Raise (UnknownOptionError "Options: bogus are unknown.")
  /\ call fold_tool (quiet_os true (Some 0%Z)) "GGGAAACCC"
       (Some [("bogus", VStr "1")]) home
     = (Raise (UnknownOptionError "Options: bogus are unknown."), home).
Proof.
  split; [reflexivity|].
  apply (@invalid_call_leaves_world_untouched _ _ fold_tool
           (quiet_os true (Some 0%Z)) "GGGAAACCC"
           (Some [("bogus", VStr "1")]) home _ eq_refl).
Defined.

Lemma unknown_option_witness :
  validate_options fold_schema
    [("zz", VNone); ("T", VStr "37"); ("q", VInt 1)]
  = Raise (UnknownOptionError "Options: zz, q are unknown.").
Proof.
  apply (unknown_option_error_lists_every_key fold_schema
           [("zz", VNone); ("T", VStr "37"); ("q", VInt 1)]).
  exists "q"; split; [simpl; auto | reflexivity].
Defined.

Lemma unknown_key_priority_witness :
  exists msg,
    validate_options fold_schema [("T", VStr "99"); ("zz", VNone)]
    = Raise (UnknownOptionError msg).
Proof.
  apply (@unknown_key_checked_before_values fold_schema
           [("T", VStr "99"); ("zz", VNone)] "zz" "T"
           (is_in [VStr "25"; VStr "37"]) (VStr "99")).
  - simpl; auto.
  - reflexivity.
  - simpl; auto.
  - reflexivity.
  - reflexivity.
Defined.

Lemma declared_valid_options_witness :
  validate_options fold_schema [("T", VStr "37"); ("noPS", VBool true)]
  = Ok true.
Proof.
  apply (declared_valid_options_accepted fold_schema
           [("T", VStr "37"); ("noPS", VBool true)]).
  - intros key [<-|[<-|[]]]; reflexivity.
  - intros key pattern value [E|[E|[E|[]]]];
      injection E as <- <-; simpl; intros [= <-]; reflexivity.
Defined.

(** * Further properties of the wrapper *)

(** ** More on the validators *)

Lemma py_eq_refl (v : PyVal) : py_eq v v = true.
Proof.
  destruct v as [|[|]|z|s]; unfold py_eq; simpl;
    auto using Z.eqb_refl, String.eqb_refl.
Qed.

(** X1: a validator made by [is_in] accepts every value it was made from,
    and a value it accepts is equal, as Python compares, to one of them;
    made from no value it rejects everything. *)
Theorem is_in_accepts_the_known_values (known : list PyVal) (arg : PyVal) :
  (In arg known -> is_in known arg = true)
  /\ (is_in known arg = true <-> exists k, In k known /\ py_eq arg k = true)
  /\ is_in [] arg = false.
Proof.
  unfold is_in; split; [|split].
  - intros H; apply existsb_exists; exists arg; auto using py_eq_refl.
  - apply existsb_exists.
  - reflexivity.
Qed.

(** ** More on validate_options *)

Lemma extra_keys_none (schema : Schema) (opts : Options) :
  (forall key, In key (keys opts) -> mem key (keys schema) = true) ->
  extra_keys_of (keys schema) opts = [].
Proof.
  intros Hkeys; rewrite extra_keys_of_filter.
  induction (keys opts) as [|k ks IH]; [reflexivity|]; simpl.
  unfold unknown_in at 1; rewrite (Hkeys k (or_introl eq_refl)); simpl.
  apply IH; intros key Hk; apply Hkeys; now right.
Qed.

Lemma extra_keys_nil_inv (schema : Schema) (opts : Options) :
  extra_keys_of (keys schema) opts = [] ->
  forall key, In key (keys opts) -> mem key (keys schema) = true.
Proof.
  rewrite extra_keys_of_filter; intros Hnil key Hin.
  destruct (mem key (keys schema)) eqn:E; [reflexivity|].
  assert (In key (filter (unknown_in schema) (keys opts))) as H.
  { apply filter_In; split; [exact Hin|]. unfold unknown_in; now rewrite E. }
  rewrite Hnil in H; contradiction.
Qed.

Lemma check_patterns_first_rejected (before after : Schema) (opts : Options)
    (key : string) (pattern : PyVal -> bool) (value : PyVal) :
  (forall k p v, In (k, p) before -> get k opts = Some v -> p v = true) ->
  get key opts = Some value -> pattern value = false ->
  check_patterns (before ++ (key, pattern) :: after) opts
  = Raise (InvalidOptionError
             ("Key " +++ key +++ " has invalid value " +++ py_str value)).
Proof.
  intros Hbefore Hget Hrej.
  induction before as [|[k p] before IH]; simpl.
  - now rewrite Hget, Hrej.
  - destruct (get k opts) as [v|] eqn:E.
    + rewrite (Hbefore k p v (or_introl eq_refl) E); simpl.
      apply IH; intros k' p' v' Hin; apply Hbefore; now right.
    + apply IH; intros k' p' v' Hin; apply Hbefore; now right.
Qed.

(** X2: when every key of the options is declared, the error is about the
    first entry of the schema whose validator rejects the value given for
    it: [InvalidOptionError] with the message
    ["Key <key> has invalid value <value>"]; later offenders are not
    looked at. *)
Theorem invalid_option_error_names_first_rejected
    (before after : Schema) (opts : Options)
    (key : string) (pattern : PyVal -> bool) (value : PyVal) :
  (forall k, In k (keys opts) ->
             mem k (keys (before ++ (key, pattern) :: after)) = true) ->
  (forall k p v, In (k, p) before -> get k opts = Some v -> p v = true) ->
  get key opts = Some value -> pattern value = false ->
  validate_options (before ++ (key, pattern) :: after) opts
  = Raise (InvalidOptionError
             ("Key " +++ key +++ " has invalid value " +++ py_str value)).
Proof.
  intros Hkeys Hbefore Hget Hrej; unfold validate_options.
  rewrite (extra_keys_none _ _ Hkeys).
  now apply check_patterns_first_rejected.
Qed.

Lemma check_patterns_Ok_inv (items : Schema) (opts : Options) (b : bool) :
  check_patterns items opts = Ok b ->
  b = true
  /\ forall key pattern value,
       In (key, pattern) items -> get key opts = Some value ->
       pattern value = true.
Proof.
  induction items as [|[k p] items IH]; simpl.
  - intros [= <-]; split; [reflexivity | intros ? ? ? []].
  - destruct (get k opts) as [v|] eqn:E.
    + destruct (p v) eqn:Epv; simpl; [|discriminate].
      intros H; destruct (IH H) as [-> Hall]; split; [reflexivity|].
      intros key pattern value [[= <- <-]|Hin] Hget; [congruence|].
      now apply (Hall key pattern value).
    + intros H; destruct (IH H) as [-> Hall]; split; [reflexivity|].
      intros key pattern value [[= <- <-]|Hin] Hget; [congruence|].
      now apply (Hall key pattern value).
Qed.

(** X3: [validate_options] returns nothing but [True], and when it does
    every key of the options is declared in the schema and every value
    given for a declared key passes the validator of that key. *)
Theorem accepted_options_are_declared_and_valid
    (schema : Schema) (opts : Options) (b : bool) :
  validate_options schema opts = Ok b ->
  b = true
  /\ (forall key, In key (keys opts) -> mem key (keys schema) = true)
  /\ (forall key pattern value,
         In (key, pattern) schema -> get key opts = Some value ->
         pattern value = true).
Proof.
  unfold validate_options.
  destruct (extra_keys_of (keys schema) opts) as [|k ks] eqn:E;
    [|discriminate].
  intros H; destruct (check_patterns_Ok_inv _ _ H) as [-> Hall].
  split; [reflexivity | split; [|exact Hall]].
  now apply extra_keys_nil_inv.
Qed.

(** ** The argument list *)

(** X4: the arguments of the program are the tokens of the options, in the
    order of the options, followed by the file name, which is always the
    last argument (the object [None] when no file name is set). *)
Theorem program_arguments_are_options_then_filename
    (filename : option string) (opts : Options) :
  generate_program_arguments filename opts
  = flat_map option_tokens opts
    ++ [match filename with Some f => VStr f | None => VNone end].
Proof.
  unfold generate_program_arguments, generate_arguments, generate_options.
  rewrite generate_options_loop; simpl.
  now destruct (flat_map option_tokens opts).
Qed.

(** ** More on the supervisor *)

Section Outcomes.

Variables Raw Res : Type.
Variable self : Wrapper Raw Res.
Variable os : OS.

Lemma validate_options_only_true (schema : Schema) (opts : Options)
    (b : bool) :
  validate_options schema opts = Ok b -> b = true.
Proof.
  unfold validate_options.
  destruct (extra_keys_of (keys schema) opts); [|discriminate].
  intros H; now destruct (check_patterns_Ok_inv _ _ H).
Qed.

Lemma validate_options_Raise_inv (schema : Schema) (opts : Options) (e : exn) :
  validate_options schema opts = Raise e ->
  (exists msg, e = UnknownOptionError msg)
  \/ (exists msg, e = InvalidOptionError msg).
Proof.
  unfold validate_options.
  destruct (extra_keys_of (keys schema) opts) as [|k ks].
  - intros H; right; induction schema as [|[key pattern] items IH];
      simpl in H; [discriminate|].
    destruct (get key opts) as [v|]; [|now apply IH].
    destruct (pattern v); simpl in H; [now apply IH|].
    injection H as <-; now eexists.
  - intros [= <-]; left; now eexists.
Qed.

Lemma validate_Ok_inv (raw : Raw) (opts : Options) (b : bool) :
  validate self raw opts = Ok b ->
  b = true /\ validate_input self raw = true
  /\ validate_options (options self) opts = Ok true.
Proof.
  unfold validate; destruct (validate_input self raw); simpl; [|discriminate].
  destruct (validate_options (options self) opts) as [[|]|e]; simpl;
    try discriminate.
  now intros [= <-].
Qed.

Lemma validate_Raise_inv (raw : Raw) (opts : Options) (e : exn) :
  validate self raw opts = Raise e ->
  (validate_input self raw = false
   /\ e = InvalidInputError "Input did not validate")
  \/ (validate_input self raw = true
      /\ validate_options (options self) opts = Raise e).
Proof.
  unfold validate; destruct (validate_input self raw); simpl.
  - destruct (validate_options (options self) opts) as [b|e'] eqn:E.
    + rewrite (validate_options_only_true _ _ E); discriminate.
    + intros [= <-]; now right.
  - intros [= <-]; now left.
Qed.

Lemma conclude_Raise_inv (prog temp_dir : string) (process : Process)
    (ready : bool) (w w' : World) (e : exn) :
  conclude self os prog temp_dir process ready w = (Raise e, w') ->
  match e with
  | ProgramTimeOutError _ => ready = false
  | ProgramFailedError _ | EnvError _ => ready = true
  | _ => False
  end.
Proof.
  unfold conclude, poll, bind, emit, ret, raise, of_outcome; simpl.
  destruct ready; simpl; [|now intros [= <- _]].
  destruct (truthy _ || truthy _); [now intros [= <- _]|].
  destruct (results self _ temp_dir (_filename self)); [discriminate|].
  now intros [= <- _].
Qed.

Lemma conclude_Ok_inv (prog temp_dir : string) (process : Process)
    (ready : bool) (w w' : World) (res : Res) :
  conclude self os prog temp_dir process ready w = (Ok res, w') ->
  ready = true
  /\ truthy (py_of_code (exit_status os process)) = false
  /\ truthy (_program_failed_ self (polled os process)) = false
  /\ results self (polled os process) temp_dir (_filename self) = Done res
  /\ w' = {| cwd := cwd w; trace := trace w ++ [Poll (pid process)] |}.
Proof.
  unfold conclude, poll, bind, emit, ret, raise, of_outcome; simpl.
  destruct ready; simpl; [|discriminate].
  destruct (truthy (py_of_code (exit_status os process))); simpl;
    [discriminate|].
  destruct (truthy (_program_failed_ self (polled os process)));
    [discriminate|].
  destruct (results self _ temp_dir (_filename self)); [|discriminate].
  now intros [= <- <-].
Qed.

(** The stages of a call: no program, no valid input, or the supervised
    run and what follows it. *)
Lemma call_cases (raw : Raw) (opts : option Options) (w : World) :
  ((program self = None \/ program self = Some "")
   /\ call self os raw opts w
      = (Raise (ValueError "Must define a program to run."), w))
  \/ (exists prog, program self = Some prog /\ prog <> ""
       /\ ((exists e, validate self raw (or_empty opts) = Raise e
                      /\ call self os raw opts w = (Raise e, w))
           \/ (validate self raw (or_empty opts) = Ok true
               /\ call self os raw opts w
                  = bind (supervise self os prog raw (or_empty opts))
                      (fun '(temp_dir, process, ready) =>
                         conclude self os prog temp_dir process ready) w))).
Proof.
  unfold call; destruct (program self) as [[|c prog]|]; auto.
  right; exists (String c prog); split; [reflexivity|].
  split; [discriminate|].
  unfold bind at 1, of_result.
  destruct (validate self raw (or_empty opts)) as [b|e] eqn:E.
  - destruct (validate_Ok_inv _ _ E) as [-> _]; right; now split.
  - left; now exists e.
Qed.

(** X5: the two [ValueError]s of [__call__].  The first (line 206) is
    raised, before anything is done, by a wrapper whose [program] is [None]
    or empty.  The second (line 211) is out of reach: [validate] returns
    nothing but [True], so a wrapper with a program either lets the
    exception of [validate] through, with nothing done, or goes on to the
    supervised run and what follows it. *)
Theorem no_program_value_error_and_dead_branch
    (raw : Raw) (opts : option Options) (w : World) :
  ((program self = None \/ program self = Some "") ->
   call self os raw opts w
   = (Raise (ValueError "Must define a program to run."), w))
  /\ (forall given valid, validate self raw given = Ok valid -> valid = true)
  /\ (forall prog, program self = Some prog -> prog <> "" ->
        (exists e, validate self raw (or_empty opts) = Raise e
                   /\ call self os raw opts w = (Raise e, w))
        \/ (validate self raw (or_empty opts) = Ok true
            /\ call self os raw opts w
               = bind (supervise self os prog raw (or_empty opts))
                   (fun '(temp_dir, process, ready) =>
                      conclude self os prog temp_dir process ready) w)).
Proof.
  split; [|split].
  - destruct (call_cases raw opts w) as [[Hp Hc]|[prog [Hp [Hne _]]]];
      [auto|].
    intros [H|H]; congruence.
  - intros given valid H; now destruct (validate_Ok_inv _ _ H).
  - intros prog Hprog Hne.
    destruct (call_cases raw opts w) as [[[Hp|Hp] Hc]|[prog' [Hp [_ H]]]];
      try congruence.
    rewrite Hprog in Hp; injection Hp as <-; exact H.
Qed.

(** X6: a call that returns a value has found the process ready, an exit
    status that is zero or not there yet, and a failure predicate that is
    false; the value is the one [results] builds from the polled process,
    the working directory and the file name; the last effect is the poll,
    and the current directory is again the one of the caller. *)
Theorem returned_value_is_built_from_clean_exit
    (raw : Raw) (opts : option Options) (w w' : World) (res : Res) :
  call self os raw opts w = (Ok res, w') ->
  exists prog temp_dir process w1,
    program self = Some prog
    /\ validate self raw (or_empty opts) = Ok true
    /\ supervise self os prog raw (or_empty opts) w
       = (Ok (temp_dir, process, true), w1)
    /\ (exit_status os process = None \/ exit_status os process = Some 0%Z)
    /\ truthy (_program_failed_ self (polled os process)) = false
    /\ results self (polled os process) temp_dir (_filename self) = Done res
    /\ w' = {| cwd := cwd w; trace := trace w1 ++ [Poll (pid process)] |}.
Proof.
  destruct (call_cases raw opts w)
    as [[Hp Hc]|[prog [Hp [Hne [[e [Hv Hc]]|[Hv Hc]]]]]];
    rewrite Hc; try discriminate.
  unfold bind.
  destruct (supervise self os prog raw (or_empty opts) w)
    as [[[[temp_dir process] ready]|e] w1] eqn:Esup; [|discriminate].
  intros H; apply conclude_Ok_inv in H as (-> & Hcode & Hpred & Hres & ->).
  exists prog, temp_dir, process, w1; repeat split; auto.
  - destruct (exit_status os process) as [z|]; [right|now left].
    simpl in Hcode; apply negb_false_iff, Z.eqb_eq in Hcode; now subst.
  - now rewrite (supervise_restores _ _ _ _ _ _ Esup).
Qed.

End Outcomes.

(** ** The effects of a call *)

Section Emits.

Context {Q : list Event -> Prop} `{Additive Q}.

Lemma emits_silent {A} (m : M A) :
  (forall w, snd (m w) = w) -> emits Q m.
Proof.
  intros Hm w; exists []; rewrite Hm, app_nil_r; split;
    [reflexivity | apply additive_nil].
Qed.

Lemma emits_ret {A} (a : A) : emits Q (ret a).
Proof. now apply emits_silent. Qed.

Lemma emits_raise {A} (e : exn) : emits Q (@raise A e).
Proof. now apply emits_silent. Qed.

Lemma emits_of_outcome {A} (o : Outcome A) : emits Q (of_outcome o).
Proof. destruct o; [apply emits_ret | apply emits_raise]. Qed.

Lemma emits_of_result {A} (r : Result A) : emits Q (of_result r).
Proof. now apply emits_silent. Qed.

Lemma emits_getcwd : emits Q getcwd.
Proof. now apply emits_silent. Qed.

Lemma emits_emit (ev : Event) : Q [ev] -> emits Q (emit ev).
Proof. intros Hev w; now exists [ev]. Qed.

Lemma emits_chdir (os : OS) (dir : string) :
  Q [Chdir dir] -> emits Q (chdir os dir).
Proof.
  intros Hev w; unfold chdir; destruct (isdir os dir); simpl.
  - now exists [Chdir dir].
  - exists []; rewrite app_nil_r; split; [reflexivity | apply additive_nil].
Qed.

Lemma emits_bind {A B} (m : M A) (k : A -> M B) :
  emits Q m -> (forall a, emits Q (k a)) -> emits Q (bind m k).
Proof.
  intros Hm Hk w; unfold bind.
  destruct (Hm w) as [xs [Hxs Qxs]].
  destruct (m w) as [[a|e] w1]; simpl in *.
  - destruct (Hk a w1) as [ys [Hys Qys]].
    exists (xs ++ ys); split; [|now apply additive_app].
    now rewrite Hys, Hxs, app_assoc.
  - now exists xs.
Qed.

End Emits.

Ltac emits_step :=
  first [ apply emits_ret | apply emits_raise | apply emits_of_outcome
        | apply emits_of_result | apply emits_getcwd
        | apply emits_emit | apply emits_chdir
        | apply emits_bind; [|intros ?] ].

Section EmitsCall.

Context {Q : list Event -> Prop} `{Additive Q}.
Variables Raw Res : Type.
Variable self : Wrapper Raw Res.
Variable os : OS.

(** The events that every supervised run may have. *)
Hypothesis Q_chdir : forall dir, Q [Chdir dir].
Hypothesis Q_spawn : forall arguments pipe, Q [Spawn arguments pipe].
Hypothesis Q_stdin : forall p text, Q [StdinWrite p text].
Hypothesis Q_select : forall p time, Q [Select p time].
Hypothesis Q_poll : forall p, Q [Poll p].

Lemma emits_spawn (prog temp_dir : string) (raw : Raw) (opts : Options) :
  emits Q (spawn self os prog temp_dir raw opts).
Proof.
  unfold spawn; repeat emits_step; auto.
  match goal with
  | |- emits _ (match ?c with _ => _ end) => destruct c
  end; repeat emits_step; auto.
Qed.

Lemma emits_supervise (prog : string) (raw : Raw) (opts : Options) :
  emits Q (temp_dir_of self os) ->
  emits Q (write_input_file self os raw) ->
  emits Q (supervise self os prog raw opts).
Proof.
  intros Hdir Hfile; unfold supervise.
  apply emits_bind; [exact Hdir | intros temp_dir].
  apply emits_bind; [apply emits_getcwd | intros cur_dir].
  apply emits_bind; [now apply emits_chdir | intros _].
  apply emits_bind; [exact Hfile | intros _].
  apply emits_bind; [apply emits_spawn | intros process].
  repeat emits_step; auto.
Qed.

Lemma emits_conclude_ready (prog temp_dir : string) (process : Process) :
  emits Q (conclude self os prog temp_dir process true).
Proof.
  unfold conclude, poll; simpl; repeat emits_step; auto.
  destruct (truthy _ || truthy _); emits_step.
Qed.

Lemma emits_conclude (prog temp_dir : string) (process : Process)
    (ready : bool) :
  (forall p, Q [Kill p]) ->
  emits Q (conclude self os prog temp_dir process ready).
Proof.
  intros Q_kill; destruct ready; [apply emits_conclude_ready|].
  unfold conclude; simpl; repeat emits_step; auto.
Qed.

Lemma emits_call (raw : Raw) (opts : option Options) :
  emits Q (temp_dir_of self os) ->
  emits Q (write_input_file self os raw) ->
  (forall p, Q [Kill p]) ->
  emits Q (call self os raw opts).
Proof.
  intros Hdir Hfile Q_kill; unfold call.
  destruct (program self) as [[|c prog]|]; try apply emits_raise.
  apply emits_bind; [apply emits_of_result | intros valid].
  destruct valid; simpl; [|apply emits_raise].
  apply emits_bind; [now apply emits_supervise|].
  intros [[temp_dir process] ready]; now apply emits_conclude.
Qed.

End EmitsCall.

Lemma avoids_additive (f : Event -> bool) : Additive (avoids f).
Proof.
  split; [reflexivity|].
  unfold avoids; intros xs ys Hx Hy; rewrite forallb_app, Hx, Hy; reflexivity.
Qed.

Lemma every_open_closed_app (xs ys : list Event) :
  every_open_closed xs = true -> every_open_closed ys = true ->
  every_open_closed (xs ++ ys) = true.
Proof.
  intros Hx Hy; induction xs as [|ev xs IH]; [exact Hy|].
  destruct ev; simpl in *; auto.
  apply andb_true_iff in Hx as [Hc Hx].
  rewrite existsb_app, Hc, (IH Hx); reflexivity.
Qed.

Lemma every_open_closed_additive :
  Additive (fun evs => every_open_closed evs = true).
Proof. split; [reflexivity | apply every_open_closed_app]. Qed.

#[local] Existing Instance avoids_additive.
#[local] Existing Instance every_open_closed_additive.

Section Effects.

Variables Raw Res : Type.
Variable self : Wrapper Raw Res.
Variable os : OS.

Lemma temp_dir_of_Ok_inv (w w0 : World) (dir : string) :
  temp_dir_of self os w = (Ok dir, w0) ->
  cwd w0 = cwd w /\ trace w0 = trace w ++ dir_events self dir.
Proof.
  unfold temp_dir_of, dir_events, bind, of_outcome, emit, ret, raise.
  destruct (_base self) as [[|c d]|]; try destruct (mkdtemp os);
    intros [= <- <-]; simpl; auto using app_nil_r.
Qed.

Lemma write_input_file_Ok_inv (raw : Raw) (w w' : World) (u : unit) :
  write_input_file self os raw w = (Ok u, w') ->
  cwd w' = cwd w
  /\ trace w' = trace w ++ file_events self raw (cwd w)
  /\ (_filename self = None \/ exists content, input_file self raw = Done content).
Proof.
  unfold write_input_file, file_events, bind, getcwd, emit, ret, raise.
  destruct (_filename self) as [name|].
  - destruct (can_open os (cwd w) name); [|discriminate].
    destruct (input_file self raw) as [content|msg]; [|discriminate].
    intros [= _ <-]; simpl; rewrite <- !app_assoc; simpl; eauto.
  - intros [= _ <-]; rewrite app_nil_r; auto.
Qed.

Lemma spawn_arguments (prog : string) (opts : Options) :
  match generate_program_arguments (_filename self) opts with
  | _ :: _ => [VStr prog] ++ generate_program_arguments (_filename self) opts
  | [] => [VStr prog]
  end
  = VStr prog :: generate_program_arguments (_filename self) opts.
Proof. now destruct (generate_program_arguments (_filename self) opts). Qed.

Lemma spawn_Ok_inv (prog temp_dir : string) (raw : Raw) (opts : Options)
    (w w' : World) (process : Process) :
  spawn self os prog temp_dir raw opts w = (Ok process, w') ->
  exists content,
    stdin self temp_dir raw opts = Done content
    /\ cwd w' = cwd w
    /\ trace w'
       = trace w
         ++ [Spawn (VStr prog
                    :: generate_program_arguments (_filename self) opts)
               (has_content content)]
         ++ stdin_events process content.
Proof.
  unfold spawn; rewrite spawn_arguments.
  unfold bind, of_outcome, emit, ret, raise, stdin_events, has_content.
  destruct (stdin self temp_dir raw opts) as [content|msg]; [|discriminate].
  destruct content as [text|].
  - destruct (popen os _ true) as [p|msg]; [|discriminate].
    destruct (stdin_write os p text); [|discriminate].
    intros [= <- <-]; exists (Some text); simpl.
    rewrite <- app_assoc; auto.
  - destruct (popen os _ false) as [p|msg]; [|discriminate].
    intros [= <- <-]; exists None; simpl; auto.
Qed.

Lemma chdir_Ok_inv (dir : string) (w w' : World) (u : unit) :
  chdir os dir w = (Ok u, w') ->
  cwd w' = dir /\ trace w' = trace w ++ [Chdir dir].
Proof.
  unfold chdir; destruct (isdir os dir); [|discriminate].
  intros [= _ <-]; auto.
Qed.

(** X7: the effects of a supervised run that comes back, in their order:
    the working directory is made if none was given, and entered; the
    input file, if there is one, is opened there, written and closed; only
    then is the program started, on the arguments
    [program, options..., filename], with a pipe for its standard input
    exactly when the [stdin] hook gave a content, which is then written;
    the wait comes next and the return to the directory of the caller
    last. *)
Theorem completed_run_effects_in_order
    (prog : string) (raw : Raw) (opts : Options) (w w1 : World)
    (temp_dir : string) (process : Process) (ready : bool) :
  supervise self os prog raw opts w = (Ok (temp_dir, process, ready), w1) ->
  exists content,
    stdin self temp_dir raw opts = Done content
    /\ (_filename self = None
        \/ exists text, input_file self raw = Done text)
    /\ trace w1
       = trace w
         ++ dir_events self temp_dir
         ++ [Chdir temp_dir]
         ++ file_events self raw temp_dir
         ++ [Spawn (VStr prog
                    :: generate_program_arguments (_filename self) opts)
               (has_content content)]
         ++ stdin_events process content
         ++ [Select (pid process) (_time self); Chdir (cwd w)].
Proof.
  unfold supervise; unfold bind at 1.
  destruct (temp_dir_of self os w) as [[dir|e] w0] eqn:E0; [|discriminate].
  apply temp_dir_of_Ok_inv in E0 as [C0 T0].
  unfold bind at 1, getcwd; unfold bind at 1.
  destruct (chdir os dir w0) as [[u|e] wa] eqn:Ea; [|discriminate].
  apply chdir_Ok_inv in Ea as [Ca Ta].
  unfold bind at 1.
  destruct (write_input_file self os raw wa) as [[u'|e] wb] eqn:Eb;
    [|discriminate].
  apply write_input_file_Ok_inv in Eb as (Cb & Tb & Hfile).
  unfold bind at 1.
  destruct (spawn self os prog dir raw opts wb) as [[p|e] wc] eqn:Ec;
    [|discriminate].
  apply spawn_Ok_inv in Ec as (content & Hstdin & Cc & Tc).
  unfold bind at 1, of_outcome.
  destruct (select os p (_time self)) as [r|msg]; [|discriminate].
  unfold ret at 1, bind at 1, emit at 1, bind at 1.
  match goal with
  | |- context [chdir os ?d ?x] =>
      destruct (chdir os d x) as [[u''|e] wd] eqn:Ed
  end; [|discriminate].
  apply chdir_Ok_inv in Ed as [Cd Td]; simpl in Td.
  unfold ret; intros [= <- <- <- <-].
  exists content; split; [exact Hstdin | split; [exact Hfile|]].
  rewrite Td, Tc, Tb, Ta, T0, Ca, C0.
  now rewrite <- !app_assoc.
Qed.

End Effects.

Section Guarantees.

Variables Raw Res : Type.
Variable self : Wrapper Raw Res.
Variable os : OS.

Lemma avoiding_temp_dir_of (f : Event -> bool) :
  (forall dir, f (Mkdtemp dir) = false)
  \/ (exists c dir, _base self = Some (String c dir)) ->
  emits (avoids f) (temp_dir_of self os).
Proof.
  intros Hf; unfold temp_dir_of.
  destruct (_base self) as [[|c d]|]; try apply emits_ret.
  all: destruct Hf as [Hf|[c' [d' Hd]]]; [|discriminate].
  all: repeat emits_step; unfold avoids; simpl; now rewrite Hf.
Qed.

Lemma avoiding_write_input_file (f : Event -> bool) (raw : Raw) :
  (forall ev, is_file_event ev = true -> f ev = false)
  \/ _filename self = None ->
  emits (avoids f) (write_input_file self os raw).
Proof.
  intros Hf; unfold write_input_file.
  destruct (_filename self) as [name|]; [|apply emits_ret].
  destruct Hf as [Hf|Hf]; [|discriminate].
  apply emits_bind; [apply emits_getcwd | intros dir].
  destruct (can_open os dir name); [|apply emits_raise].
  apply emits_bind; [apply emits_emit | intros _].
  { unfold avoids; simpl; now rewrite Hf. }
  destruct (input_file self raw); repeat emits_step;
    unfold avoids; simpl; now rewrite Hf.
Qed.

(** X8: the process is killed on the time-out and on no other way out of a
    call: when the call returns, or raises anything but
    [ProgramTimeOutError], no process was killed. *)
Theorem no_kill_without_timeout
    (raw : Raw) (opts : option Options) (w w' : World) (r : Result Res) :
  call self os raw opts w = (r, w') ->
  (forall msg, r <> Raise (ProgramTimeOutError msg)) ->
  exists evs, trace w' = trace w ++ evs /\ avoids is_kill evs.
Proof.
  assert (emits (avoids is_kill) (temp_dir_of self os)) as Hdir
    by (apply avoiding_temp_dir_of; now left).
  assert (emits (avoids is_kill) (write_input_file self os raw)) as Hfile.
  { apply avoiding_write_input_file; left; now intros []. }
  destruct (call_cases self os raw opts w)
    as [[Hp Hc]|[prog [Hp [Hne [[e [Hv Hc]]|[Hv Hc]]]]]]; rewrite Hc.
  1,2: intros [= <- <-] _; exists []; now rewrite app_nil_r.
  unfold bind.
  assert (emits (avoids is_kill)
            (supervise self os prog raw (or_empty opts))) as Hs
    by (apply emits_supervise; auto; reflexivity).
  destruct (Hs w) as [xs [Hxs Qxs]].
  destruct (supervise self os prog raw (or_empty opts) w)
    as [[[[temp_dir process] ready]|e] w1]; simpl in Hxs.
  - destruct ready.
    + assert (emits (avoids is_kill)
                (conclude self os prog temp_dir process true)) as Hc'
        by (apply emits_conclude_ready; reflexivity).
      destruct (Hc' w1) as [ys [Hys Qys]].
      intros Hr _; rewrite Hr in Hys; simpl in Hys.
      exists (xs ++ ys); split; [|now apply additive_app].
      now rewrite Hys, Hxs, app_assoc.
    + unfold conclude; simpl; unfold bind, emit, raise.
      intros [= <- _] Hno; now destruct (Hno (timeout_message prog)).
  - intros [= <- <-] _; now exists xs.
Qed.

(** X9: a wrapper whose file name is [None] touches no file: whatever the
    outcome of the call, no file is opened, written or closed. *)
Theorem no_filename_no_file
    (raw : Raw) (opts : option Options) (w : World) :
  _filename self = None ->
  exists evs,
    trace (snd (call self os raw opts w)) = trace w ++ evs
    /\ avoids is_file_event evs.
Proof.
  intros Hname.
  apply emits_call; try reflexivity.
  - apply avoiding_temp_dir_of; now left.
  - apply avoiding_write_input_file; now right.
Qed.

(** X10: a wrapper given a directory works in it and makes none: whatever
    the outcome of the call, [mkdtemp] is not used. *)
Theorem given_directory_none_made
    (raw : Raw) (opts : option Options) (w : World) (c : ascii) (dir : string) :
  _base self = Some (String c dir) ->
  exists evs,
    trace (snd (call self os raw opts w)) = trace w ++ evs
    /\ avoids is_mkdtemp evs.
Proof.
  intros Hbase.
  apply emits_call; try reflexivity.
  - apply avoiding_temp_dir_of; right; eauto.
  - apply avoiding_write_input_file; left; now intros [].
Qed.

(** X11: the input file never stays open: on every way out of a call, also
    when the input writer, the start of the program or the wait raises,
    each file that was opened has been closed. *)
Theorem input_file_always_closed
    (raw : Raw) (opts : option Options) (w : World) :
  exists evs,
    trace (snd (call self os raw opts w)) = trace w ++ evs
    /\ every_open_closed evs = true.
Proof.
  apply (emits_call (Q:=fun evs => every_open_closed evs = true));
    try reflexivity.
  - unfold temp_dir_of; destruct (_base self) as [[|c d]|];
      repeat emits_step; reflexivity.
  - unfold write_input_file; destruct (_filename self) as [name|];
      [|apply emits_ret].
    intros w0; unfold bind, getcwd, emit, ret, raise.
    destruct (can_open os (cwd w0) name); simpl.
    + destruct (input_file self raw) as [content|msg]; simpl.
      * exists [OpenWrite (cwd w0) name; WriteFile name content;
                CloseFile name].
        rewrite <- !app_assoc; simpl; now rewrite String.eqb_refl.
      * exists [OpenWrite (cwd w0) name; CloseFile name].
        rewrite <- !app_assoc; simpl; now rewrite String.eqb_refl.
    + exists []; now rewrite app_nil_r.
Qed.

End Guarantees.

(** ** Concrete runs of the further properties *)

Lemma invalid_option_error_witness :
  validate_options fold_schema [("noPS", VInt 1); ("T", VStr "37")]
  = Raise (InvalidOptionError "Key noPS has invalid value 1").
Proof.
  apply (@invalid_option_error_names_first_rejected
           [("T", is_in [VStr "25"; VStr "37"])] [("p", is_number)]
           [("noPS", VInt 1); ("T", VStr "37")] "noPS" is_true (VInt 1)).
  - intros k [<-|[<-|[]]]; reflexivity.
  - intros k p v [[= <- <-]|[]]; simpl; intros [= <-]; reflexivity.
  - reflexivity.
  - reflexivity.
Defined.

Lemma accepted_options_witness :
  validate_options fold_schema [("T", VStr "37"); ("noPS", VBool true)]
  = Ok true
  /\ (forall key pattern value,
         In (key, pattern) fold_schema ->
         get key [("T", VStr "37"); ("noPS", VBool true)] = Some value ->
         pattern value = true).
Proof.
  split; [reflexivity|].
  apply (@accepted_options_are_declared_and_valid fold_schema
           [("T", VStr "37"); ("noPS", VBool true)] true eq_refl).
Defined.

Lemma returned_value_witness :
  exists prog temp_dir process w1,
    program fold_tool = Some prog
    /\ validate fold_tool "GGGAAACCC" (or_empty None) = Ok true
    /\ supervise fold_tool (quiet_os true (Some 0%Z)) prog "GGGAAACCC"
         (or_empty None) home
       = (Ok (temp_dir, process, true), w1)
    /\ (exit_status (quiet_os true (Some 0%Z)) process = None
        \/ exit_status (quiet_os true (Some 0%Z)) process = Some 0%Z)
    /\ truthy (_program_failed_ fold_tool
                 (polled (quiet_os true (Some 0%Z)) process)) = false
    /\ results fold_tool (polled (quiet_os true (Some 0%Z)) process)
         temp_dir (_filename fold_tool) = Done "((..))"
    /\ snd (call fold_tool (quiet_os true (Some 0%Z)) "GGGAAACCC" None home)
       = {| cwd := cwd home; trace := trace w1 ++ [Poll (pid process)] |}.
Proof.
  apply (@returned_value_is_built_from_clean_exit _ _ fold_tool
           (quiet_os true (Some 0%Z)) "GGGAAACCC" None home _ "((..))").
  reflexivity.
Defined.

Lemma completed_run_effects_witness :
  trace (snd (supervise feed_tool strict_os "RNAfold"
                "GGGAAACCC" [("T", VStr "37")] home))
  = [Mkdtemp "/tmp/tmpa1"; Chdir "/tmp/tmpa1";
     OpenWrite "/tmp/tmpa1" "in.fa"; WriteFile "in.fa" "GGGAAACCC";
     CloseFile "in.fa";
     Spawn [VStr "RNAfold"; VStr "-37"; VStr "37"; VStr "in.fa"] true;
     StdinWrite 7 "GGGAAACCC"; Select 7 120; Chdir "/home/user"].
Proof.
  destruct (@completed_run_effects_in_order _ _ feed_tool
              strict_os "RNAfold" "GGGAAACCC"
              [("T", VStr "37")] home _ "/tmp/tmpa1" fold_process true
              (surjective_pairing _))
    as [content [Hstdin [_ Htrace]]].
  injection Hstdin as <-.
  exact Htrace.
Defined.

Lemma no_kill_witness :
  exists evs,
    trace (snd (call fold_tool (quiet_os true (Some 1%Z)) "GGGAAACCC" None
                  home))
    = trace home ++ evs
    /\ avoids is_kill evs.
Proof.
  apply (@no_kill_without_timeout _ _ fold_tool (quiet_os true (Some 1%Z))
           "GGGAAACCC" None home _ _ (surjective_pairing _)).
  intros msg; discriminate.
Defined.

Lemma no_filename_witness :
  exists evs,
    trace (snd (call pipe_tool strict_os "GGGAAACCC" None home))
    = trace home ++ evs
    /\ avoids is_file_event evs.
Proof.
  apply (@no_filename_no_file _ _ pipe_tool strict_os
           "GGGAAACCC" None home eq_refl).
Defined.

Lemma given_directory_witness :
  exists evs,
    trace (snd (call fold_tool (quiet_os true (Some 0%Z)) "GGGAAACCC" None
                  home))
    = trace home ++ evs
    /\ avoids is_mkdtemp evs.
Proof.
  apply (@given_directory_none_made _ _ fold_tool (quiet_os true (Some 0%Z))
           "GGGAAACCC" None home "/"%char "tmp/work" eq_refl).
Defined.

(** * Properties of the identifiers *)

(** ** Strings *)

Lemma split_on_plain (sep : ascii) (s : string) :
  mentions sep s = false -> split_on sep s = [s].
Proof.
  induction s as [|c s IH]; simpl; [reflexivity|].
  intros H; apply orb_false_iff in H as [Hc Hs].
  now rewrite Hc, (IH Hs).
Qed.

Lemma split_on_app (sep : ascii) (s rest : string) :
  mentions sep s = false ->
  split_on sep (s +++ String sep rest) = s :: split_on sep rest.
Proof.
  induction s as [|c s IH]; simpl; intros H.
  - now rewrite Ascii.eqb_refl.
  - apply orb_false_iff in H as [Hc Hs].
    now rewrite Hc, (IH Hs).
Qed.

Lemma split_on_concat (sep : ascii) (parts : list string) :
  parts <> [] ->
  Forall (fun part => mentions sep part = false) parts ->
  split_on sep (String.concat (String sep "") parts) = parts.
Proof.
  intros Hne Hall; induction Hall as [|x l Hx Hl IH]; [contradiction|].
  destruct l as [|y l]; [now apply split_on_plain|].
  change (String.concat (String sep "") (x :: y :: l))
    with (x +++ String sep (String.concat (String sep "") (y :: l))).
  rewrite split_on_app by exact Hx.
  rewrite IH; [reflexivity | discriminate].
Qed.

Lemma split_on_not_nil (sep : ascii) (s : string) : split_on sep s <> [].
Proof.
  destruct s as [|c s]; simpl; [discriminate|].
  destruct (Ascii.eqb c sep); [discriminate|].
  destruct (split_on sep s); discriminate.
Qed.

Lemma lstrip_head (s : string) :
  match lstrip s with
  | EmptyString => True
  | String c _ => is_space c = false
  end.
Proof.
  induction s as [|c s IH]; simpl; [exact I|].
  destruct (is_space c) eqn:E; [exact IH | exact E].
Qed.

Lemma lstrip_fixed (s : string) :
  match s with
  | EmptyString => True
  | String c _ => is_space c = false
  end -> lstrip s = s.
Proof. destruct s as [|c s]; simpl; [reflexivity | now intros ->]. Qed.

Lemma rstrip_head (s : string) :
  match s with
  | EmptyString => True
  | String c _ => is_space c = false
  end ->
  match rstrip s with
  | EmptyString => True
  | String c _ => is_space c = false
  end.
Proof.
  destruct s as [|c s]; simpl; [auto|]; intros Hc.
  destruct (rstrip s); [now rewrite Hc | exact Hc].
Qed.

Lemma rstrip_idempotent (s : string) : rstrip (rstrip s) = rstrip s.
Proof.
  induction s as [|c s IH]; simpl; [reflexivity|].
  destruct (rstrip s) as [|d kept] eqn:E.
  - destruct (is_space c) eqn:Ec; simpl; [reflexivity | now rewrite Ec].
  - simpl; simpl in IH; now rewrite IH.
Qed.

Lemma strip_idempotent (s : string) : strip (strip s) = strip s.
Proof.
  unfold strip.
  rewrite (lstrip_fixed (rstrip (lstrip s))).
  - apply rstrip_idempotent.
  - apply rstrip_head, lstrip_head.
Qed.

Lemma py_eq_blank (v : PyVal) : py_eq v (VStr "") = true <-> v = VStr "".
Proof.
  destruct v as [|[|]|z|s]; simpl; split; try discriminate; try reflexivity.
  - unfold py_eq; simpl; intros H; apply String.eqb_eq in H; now subst.
  - intros [= ->]; reflexivity.
Qed.

(** ** GenericIdGenerator *)

Lemma check_required_loop_spec (required : list string) (data : Options) :
  (check_required_loop required data = Got true <->
   forall name, In name required ->
     exists v, get name data = Some v /\ v <> VNone /\ v <> VStr "")
  /\ (forall e, check_required_loop required data = Thrown e ->
                exists msg, e = MissingRequiredFragment msg)
  /\ check_required_loop required data <> Got false.
Proof.
  induction required as [|name rest [IHiff [IHerr IHno]]]; simpl.
  - repeat split; try discriminate. intros _ name [].
  - destruct (get name data) as [v|] eqn:E.
    + destruct (py_eq v (VStr "")) eqn:Eb.
      * apply py_eq_blank in Eb; subst v; repeat split; try discriminate.
        -- intros H; destruct (H name (or_introl eq_refl)) as [v [Hv [_ Hb]]].
           rewrite E in Hv; injection Hv as <-; now destruct Hb.
        -- intros e [= <-]; now eexists.
      * assert (v <> VStr "") as Hnb
          by (intros ->; discriminate Eb).
        destruct v as [|b|z|s].
        { repeat split; try discriminate.
          - intros H; destruct (H name (or_introl eq_refl)) as [v [Hv [Hn _]]].
            rewrite E in Hv; injection Hv as <-; now destruct Hn.
          - intros e [= <-]; now eexists. }
        all: repeat split; auto.
        all: try (intros H n [<-|Hn];
                  [eexists; repeat split; [exact E | discriminate | exact Hnb]
                  | now apply IHiff]).
        all: intros H; apply IHiff; intros n Hn; apply H; now right.
    + repeat split; try discriminate.
      * intros H; destruct (H name (or_introl eq_refl)) as [v [Hv _]].
        rewrite E in Hv; discriminate.
      * intros e [= <-]; now eexists.
Qed.

(** X12: [check_required] accepts exactly the data in which every required
    fragment is present, is not [None] and is not the empty string; it
    returns nothing but [True], and what it raises is
    [MissingRequiredFragment]. *)
Theorem check_required_accepts_iff
    (self : GenericIdGenerator) (data : Options) :
  (check_required self data = Got true <->
   forall name, In name (cfg_required (_config self)) ->
     exists v, get name data = Some v /\ v <> VNone /\ v <> VStr "")
  /\ (forall e, check_required self data = Thrown e ->
                exists msg, e = MissingRequiredFragment msg)
  /\ check_required self data <> Got false.
Proof. apply check_required_loop_spec. Qed.

Lemma check_required_first_missing (before after : list string)
    (name : string) (data : Options) :
  (forall n, In n before ->
     exists v, get n data = Some v /\ v <> VNone /\ v <> VStr "") ->
  (get name data = None \/ get name data = Some VNone ->
   check_required_loop (before ++ name :: after) data
   = Thrown (MissingRequiredFragment ("Missing required " +++ name)))
  /\ (get name data = Some (VStr "") ->
      check_required_loop (before ++ name :: after) data
      = Thrown (MissingRequiredFragment ("Given empty " +++ name))).
Proof.
  intros Hbefore; induction before as [|n before IH]; simpl.
  - split; [intros [->| ->]; reflexivity | intros ->; reflexivity].
  - destruct (Hbefore n (or_introl eq_refl)) as [v [-> [Hn Hb]]].
    assert (py_eq v (VStr "") = false) as ->.
    { destruct (py_eq v (VStr "")) eqn:E; [|reflexivity].
      apply py_eq_blank in E; contradiction. }
    destruct v; try (now destruct Hn);
      apply IH; intros m Hm; apply Hbefore; now right.
Qed.

(** X13: the error of [check_required] is about the first required
    fragment, in the order of the configuration, that is unusable:
    ["Missing required <name>"] when it is absent or [None],
    ["Given empty <name>"] when it is the empty string. *)
Theorem check_required_reports_first_unusable
    (self : GenericIdGenerator) (before after : list string)
    (name : string) (data : Options) :
  cfg_required (_config self) = before ++ name :: after ->
  (forall n, In n before ->
     exists v, get n data = Some v /\ v <> VNone /\ v <> VStr "") ->
  (get name data = None \/ get name data = Some VNone ->
   check_required self data
   = Thrown (MissingRequiredFragment ("Missing required " +++ name)))
  /\ (get name data = Some (VStr "") ->
      check_required self data
      = Thrown (MissingRequiredFragment ("Given empty " +++ name))).
Proof.
  intros Hreq Hbefore; unfold check_required; rewrite Hreq.
  now apply check_required_first_missing.
Qed.

(** X14: what [insertion_code] returns is [None] or a clean code: a string
    that is not empty and has no white space around it, namely the given
    code stripped.  A code that is absent, [None], empty, blank or the
    placeholder [?] gives [None]. *)
Theorem insertion_code_is_none_or_stripped (data : Options) :
  (forall code, insertion_code data = Got (Some code) ->
     code <> "" /\ strip code = code
     /\ exists raw, get "insertion_code" data = Some (VStr raw)
                    /\ raw <> "?" /\ code = strip raw)
  /\ (get "insertion_code" data = None
      \/ get "insertion_code" data = Some VNone
      \/ get "insertion_code" data = Some (VStr "?")
      \/ (exists raw, get "insertion_code" data = Some (VStr raw)
                      /\ strip raw = "") ->
      insertion_code data = Got None).
Proof.
  unfold insertion_code; split.
  - intros code.
    destruct (get "insertion_code" data) as [[|[|]|z|raw]|]; simpl;
      try discriminate.
    + destruct (negb (negb (z =? 0)%Z)); discriminate.
    + unfold py_eq; simpl.
      destruct (raw =? "?") eqn:Eq; simpl; [discriminate|].
      destruct (raw =? "") eqn:Ee; simpl; [discriminate|].
      destruct (strip raw =? "") eqn:Es; simpl; [discriminate|].
      intros [= <-]; split; [|split].
      * intros H; rewrite H in Es; discriminate.
      * apply strip_idempotent.
      * exists raw; repeat split.
        intros ->; discriminate.
  - intros [->|[->|[->|[raw [-> Hs]]]]]; try reflexivity.
    unfold py_eq; simpl.
    destruct (raw =? "?"); simpl; [reflexivity|].
    destruct (raw =? ""); simpl; [reflexivity|].
    now rewrite Hs.
Qed.

(** ** The unit identifiers *)

(** X15: [UnitIdParser] gives each of the nine fragments the part at its
    place, as a string, and [None] to the fragments beyond the last part;
    an identifier of more than nine parts raises [IndexError]. *)
Theorem unit_id_parser_fields (text : string) :
  (List.length (split_on "|" text) <= 9 ->
   exists data,
     UnitIdParser text = Got data
     /\ forall index name,
          nth_error (cfg_fragments UNIT_ID) index = Some name ->
          get name data = Some (part_value (split_on "|" text) index))
  /\ (9 < List.length (split_on "|" text) -> UnitIdParser text = Thrown IndexError).
Proof.
  unfold UnitIdParser.
  pose proof (split_on_not_nil "|" text) as Hne.
  destruct (split_on "|" text)
    as [|p0 [|p1 [|p2 [|p3 [|p4 [|p5 [|p6 [|p7 [|p8 [|p9 more]]]]]]]]]];
    [contradiction|..].
  1-9: split; [intros _ | simpl; lia].
  1-9: eexists; split; [reflexivity|]; intros index name Hn.
  1-9: do 9 (destruct index as [|index];
             [injection Hn as <-; reflexivity|]);
       destruct index; discriminate.
  split; [simpl; lia | intros _; reflexivity].
Qed.

Lemma insertion_code_plain (data : Options) (code : string) :
  get "insertion_code" data = Some (VStr code) -> plain_code code ->
  insertion_code data = Got (Some code).
Proof.
  intros Hget (Hne & Hq & Hs); unfold insertion_code; rewrite Hget.
  unfold py_eq; simpl.
  apply String.eqb_neq in Hne, Hq; rewrite Hq, Hne, Hs, Hne; reflexivity.
Qed.

Lemma insertion_code_blank (data : Options) :
  get "insertion_code" data = Some (VStr "") -> insertion_code data = Got None.
Proof. intros Hget; unfold insertion_code; now rewrite Hget. Qed.

Lemma insertion_code_none (data : Options) :
  get "insertion_code" data = Some VNone -> insertion_code data = Got None.
Proof. intros Hget; unfold insertion_code; now rewrite Hget. Qed.

Section UnitRoundTrip.

#[local] Arguments insertion_code : simpl never.

(** X16: writing what was parsed gives the identifier back.  For an
    identifier of at most nine parts whose PDB part is not empty and is in
    upper case, whose residue and number are both given or both left out,
    whose insertion code, if it has one, is clean (or empty, when a symmetry
    operator follows) and whose symmetry operator is not the default
    [1_555], the short form that [UnitIdGenerator] makes of the dictionary
    of [UnitIdParser] is the identifier itself. *)
Theorem unit_id_round_trip (pdb : string) (rest : list string) :
  let parts := pdb :: rest in
  List.length parts <= 9 ->
  Forall (fun part => mentions "|" part = false) parts ->
  pdb <> "" -> upper pdb = pdb ->
  is_set (nth_error parts 3) = is_set (nth_error parts 4) ->
  (forall code, nth_error parts 7 = Some code ->
                plain_code code \/ (code = "" /\ List.length parts = 9)) ->
  nth_error parts 8 <> Some "1_555" ->
  (try obj := UnitIdParser (String.concat "|" parts) in
   unit_id UnitIdGenerator obj true [])
  = Got (String.concat "|" parts).
Proof.
  intros parts Hlen Hbar Hpdb Hup Hres Hcode Hsym.
  unfold UnitIdParser.
  rewrite split_on_concat by (auto; discriminate).
  assert ((pdb =? "") = false) as Hpdb' by (now apply String.eqb_neq).
  subst parts.
  destruct rest as [|p1 [|p2 [|p3 [|p4 [|p5 [|p6 [|p7 [|p8 [|p9 more]]]]]]]]];
    [..|simpl in Hlen; lia].
  all: unfold unit_id, fragments, merge, check_required; cbn.
  all: unfold py_eq; cbn; rewrite Hpdb'; cbn.
  1-7: rewrite insertion_code_none by reflexivity; cbn; rewrite Hup.
  1-3: reflexivity.
  1-4: cbn in Hres; rewrite Hres; try rewrite Bool.eqb_reflx; reflexivity.
  - destruct (Hcode p7 eq_refl) as [Hplain|[-> Hn]]; [|discriminate Hn].
    rewrite (@insertion_code_plain _ p7)
      by first [reflexivity | exact Hplain].
    cbn; rewrite Hup.
    cbn in Hres; rewrite Hres, Bool.eqb_reflx; reflexivity.
  - assert ((p8 =? "1_555") = false) as Hs.
    { apply String.eqb_neq; intros ->; now apply Hsym. }
    cbn in Hres.
    destruct (Hcode p7 eq_refl) as [Hplain|[-> _]].
    + rewrite (@insertion_code_plain _ p7)
        by first [reflexivity | exact Hplain].
      cbn; rewrite Hup.
      rewrite Hres, Bool.eqb_reflx; cbn; rewrite Hs; reflexivity.
    + rewrite insertion_code_blank by reflexivity; cbn; rewrite Hup.
      rewrite Hres, Bool.eqb_reflx; cbn; rewrite Hs; reflexivity.
Qed.

End UnitRoundTrip.

(** *** What the unit generator can raise *)

Lemma fragment_text_cases (merged : Options) (name : string) :
  (exists text, fragment_text merged name = Got text)
  \/ (fragment_text merged name = Thrown AttributeError
      /\ match get "insertion_code" merged with
         | Some (VInt _) | Some (VBool _) => True
         | _ => False
         end).
Proof.
  unfold fragment_text; destruct (name =? "insertion_code").
  - unfold insertion_code.
    destruct (get "insertion_code" merged) as [[|b|z|s]|]; simpl; eauto;
      repeat match goal with
             | |- context [if ?c then _ else _] => destruct c
             end; eauto.
  - destruct (get name merged) as [[|b|z|s]|]; eauto.
Qed.

Lemma fragment_texts_cases (merged : Options) (names : list string) :
  match fragment_texts merged names with
  | Got data => List.length data = List.length names
  | Thrown e =>
      e = AttributeError
      /\ match get "insertion_code" merged with
         | Some (VInt _) | Some (VBool _) => True
         | _ => False
         end
  end.
Proof.
  induction names as [|name names IH]; simpl; [reflexivity|].
  destruct (fragment_text_cases merged name) as [[text ->]|[-> Hc]]; simpl;
    [|now split].
  destruct (fragment_texts merged names) as [data|e]; simpl; [|exact IH].
  now rewrite IH.
Qed.

Lemma fragment_texts_head (merged : Options) (name : string)
    (names : list string) (data : list (option string)) (v : PyVal) :
  fragment_texts merged (name :: names) = Got data ->
  (name =? "insertion_code") = false ->
  get name merged = Some v -> v <> VNone ->
  exists text, nth_error data 0 = Some (Some text).
Proof.
  cbn [fragment_texts]; unfold fragment_text; intros H Hname Hget Hv.
  rewrite Hname, Hget in H.
  destruct (fragment_texts merged names) as [items|e];
    destruct v as [|b|z|s]; try (now destruct Hv); simpl in H;
    try discriminate; injection H as <-; simpl; eauto.
Qed.

Lemma drop_leading_none_found (reversed : list (option string)) :
  (exists text, In (Some text) reversed) ->
  exists kept, drop_leading_none reversed = Got kept.
Proof.
  induction reversed as [|[text|] rest IH]; simpl.
  - now intros [text []].
  - eauto.
  - intros [text [H|H]]; [discriminate | eauto].
Qed.

Lemma trim_trailing_none_found (data : list (option string)) :
  (exists text, In (Some text) data) ->
  exists kept, trim_trailing_none data = Got kept.
Proof.
  intros [text H]; unfold trim_trailing_none.
  destruct (drop_leading_none_found (rev data)) as [kept ->].
  - exists text; now apply in_rev in H.
  - simpl; eauto.
Qed.

Lemma check_leading_raises (index : nat) (data : list (option string))
    (e : IdError) :
  check_leading index data = Thrown e ->
  exists msg, e = MissingRequiredFragment msg.
Proof.
  revert index; induction data as [|[text|] rest IH]; intros index; simpl.
  - discriminate.
  - apply IH.
  - destruct (index <? 3)%nat; [intros [= <-]; eauto | apply IH].
Qed.

(** X17: the unit generator fails in two ways only.  Whatever the object,
    the keywords and the lookups, what [UnitIdGenerator.__call__] raises is
    [MissingRequiredFragment], or [AttributeError] when the insertion code
    is a number or a boolean; the indexing of [data] and the loop that
    trims it never run off the list. *)
Theorem unit_id_raises_missing_fragment_only
    (self : GenericIdGenerator) (obj kwargs : Options) (short : bool)
    (e : IdError) :
  _config self = UNIT_ID ->
  unit_id self obj short kwargs = Thrown e ->
  (exists msg, e = MissingRequiredFragment msg)
  \/ (e = AttributeError
      /\ match merged_value self obj kwargs "insertion_code" with
         | VInt _ | VBool _ => True
         | _ => False
         end).
Proof.
  intros Hcfg; unfold unit_id, fragments, check_required.
  destruct (check_required_loop_spec (cfg_required (_config self))
              (merge self obj kwargs)) as [Hiff [Herr Hno]].
  destruct (check_required_loop (cfg_required (_config self))
              (merge self obj kwargs)) as [[|]|e0] eqn:Ereq; simpl.
  2: now destruct Hno.
  2: intros [= <-]; left; now apply Herr.
  assert (exists v, get "pdb" (merge self obj kwargs) = Some v
                    /\ v <> VNone) as [v [Hpdb Hv]].
  { destruct (proj1 Hiff eq_refl "pdb") as [v [H1 [H2 _]]]; [|eauto].
    rewrite Hcfg; simpl; auto. }
  assert (get "insertion_code" (merge self obj kwargs)
          = Some (merged_value self obj kwargs "insertion_code")) as Hins.
  { unfold merge; rewrite Hcfg; reflexivity. }
  pose proof (fragment_texts_cases (merge self obj kwargs)
                (cfg_fragments (_config self))) as Hdata.
  destruct (fragment_texts (merge self obj kwargs)
              (cfg_fragments (_config self))) as [data|e1] eqn:Edata; simpl.
  2: { intros [= <-]; right; rewrite Hins in Hdata; exact Hdata. }
  assert (exists text, nth_error data 0 = Some (Some text)) as [text Hhead].
  { rewrite Hcfg in Edata.
    now apply (fragment_texts_head _ _ _ Edata eq_refl Hpdb). }
  rewrite Hcfg in Hdata; simpl in Hdata.
  destruct data as [|d0 [|d1 [|d2 [|d3 [|d4 [|d5 [|d6 [|d7 [|d8 [|d9 more]]]]]]]]]];
    try discriminate Hdata.
  simpl in Hhead; injection Hhead as ->.
  unfold item at 1 2; simpl.
  destruct (negb (eqb (is_set d3) (is_set d4)));
    [intros [= <-]; left; eauto|].
  destruct short; simpl; [|discriminate].
  unfold item; simpl.
  match goal with
  | |- context [trim_trailing_none ?l] =>
      destruct (trim_trailing_none_found l) as [kept ->]
  end.
  { exists text; destruct d8 as [s|]; [destruct (s =? "1_555")|];
      simpl; auto. }
  simpl.
  destruct (check_leading 0 kept) as [u|e2] eqn:Elead; simpl; [discriminate|].
  intros [= <-]; left; now apply check_leading_raises in Elead.
Qed.

(** ** The nucleotide identifiers *)

Section NucleotideRoundTrip.

#[local] Arguments insertion_code : simpl never.

(** X18: an old-style nucleotide identifier needs its seven parts:
    [NucleotideIdParser] raises [KeyError] on fewer (the insertion code is
    then not in the dictionary).  On an identifier of seven parts of which
    the first six are not empty, the PDB part is in upper case and the
    insertion code is empty or clean, writing what was parsed gives the
    identifier back. *)
Theorem nucleotide_id_round_trip
    (pdb type model chain number residue code : string) :
  let parts := [pdb; type; model; chain; number; residue; code] in
  (forall text, List.length (split_on "_" text) < 7 ->
                NucleotideIdParser text = Thrown (KeyError "insertion_code"))
  /\ (Forall (fun part => mentions "_" part = false) parts ->
      Forall (fun part => part <> "")
        [pdb; type; model; chain; number; residue] ->
      upper pdb = pdb ->
      code = "" \/ plain_code code ->
      (try data := NucleotideIdParser (String.concat "_" parts) in
       nucleotide_id NucleotideIdGenerator data [])
      = Got (String.concat "_" parts)).
Proof.
  intros parts; split.
  - intros text; unfold NucleotideIdParser.
    pose proof (split_on_not_nil "_" text) as Hne.
    destruct (split_on "_" text)
      as [|p0 [|p1 [|p2 [|p3 [|p4 [|p5 [|p6 more]]]]]]];
      [contradiction|..]; simpl; try reflexivity; lia.
  - intros Hbar Hfull Hup Hcode; unfold NucleotideIdParser.
    rewrite split_on_concat by (auto; discriminate).
    repeat match goal with
           | H : Forall _ (_ :: _) |- _ => inversion_clear H
           end.
    repeat match goal with
           | H : ?x <> "" |- _ => apply String.eqb_neq in H
           end.
    subst parts; cbn; unfold py_eq; cbn.
    destruct Hcode as [->|Hplain]; cbn.
    + unfold nucleotide_id, fragments, merge, check_required; cbn.
      unfold py_eq; cbn.
      repeat match goal with
             | H : (?x =? "") = false |- _ => rewrite H; clear H
             end; cbn.
      rewrite insertion_code_none by reflexivity; cbn.
      now rewrite Hup.
    + destruct Hplain as (Hne & Hq & Hs).
      apply String.eqb_neq in Hne; rewrite Hne.
      unfold nucleotide_id, fragments, merge, check_required; cbn.
      unfold py_eq; cbn.
      repeat match goal with
             | H : (?x =? "") = false |- _ => rewrite H
             end; cbn.
      rewrite (@insertion_code_plain _ code);
        [cbn; now rewrite Hup | reflexivity |].
      repeat split; auto; now apply String.eqb_neq.
Qed.

End NucleotideRoundTrip.

(** ** The Matlab identifiers *)

Lemma but_last_last_char (s : string) (c : ascii) :
  last_char s = Some c -> but_last s +++ String c "" = s.
Proof.
  induction s as [|d s IH]; simpl; [discriminate|].
  destruct s as [|d' s']; [now intros [= ->]|].
  intros H; simpl; f_equal; now apply IH.
Qed.

Lemma last_char_not_empty (s : string) (c : ascii) :
  last_char s = Some c -> s <> "".
Proof. destruct s; [discriminate | discriminate]. Qed.

Lemma plain_code_char (c : ascii) :
  c <> "?"%char -> is_space c = false -> plain_code (String c "").
Proof.
  intros Hq Hs; repeat split; try discriminate.
  - intros [= ->]; now apply Hq.
  - unfold strip; simpl; rewrite Hs; simpl; now rewrite Hs.
Qed.

Section MatlabRoundTrip.

#[local] Arguments insertion_code : simpl never.

(** X19: writing what was parsed gives a Matlab identifier back.  For
    [chain:RNNNc], with a chain that is not empty, one character of residue,
    no other colon, and a number that ends in a digit, or in one character
    of insertion code that is neither [?] nor white space and follows at
    least one character of number, [MatlabIdGenerator] makes of the
    dictionary of [MatlabIdParser] the identifier itself. *)
Theorem matlab_id_round_trip (chain body : string) (r last : ascii) :
  chain <> "" -> mentions ":" chain = false ->
  mentions ":" (String r body) = false ->
  last_char body = Some last ->
  is_digit last = true
  \/ (last <> "?"%char /\ is_space last = false /\ but_last body <> "") ->
  (try data := MatlabIdParser (chain +++ ":" +++ String r body) [] in
   matlab_id MatlabIdGenerator data [])
  = Got (chain +++ ":" +++ String r body).
Proof.
  intros Hchain Hbar Hbody Hlast Hcases.
  unfold MatlabIdParser.
  change (chain +++ ":" +++ String r body)
    with (chain +++ String ":" (String r body)).
  rewrite split_on_app by exact Hbar.
  rewrite split_on_plain by exact Hbody.
  unfold number_and_code; cbn; rewrite Hlast; cbn.
  apply String.eqb_neq in Hchain.
  destruct (is_digit last) eqn:Hd; cbn.
  - pose proof (last_char_not_empty Hlast) as Hne.
    apply String.eqb_neq in Hne.
    unfold matlab_id, fragments, merge, check_required; cbn.
    unfold py_eq; cbn; rewrite Hchain, Hne; cbn.
    rewrite insertion_code_none by reflexivity; reflexivity.
  - destruct Hcases as [Hd'|(Hq & Hs & Hnum)]; [discriminate|].
    apply String.eqb_neq in Hnum.
    unfold matlab_id, fragments, merge, check_required; cbn.
    unfold py_eq; cbn; rewrite Hchain, Hnum; cbn.
    rewrite (@insertion_code_plain _ (String last ""));
      [cbn | reflexivity | now apply plain_code_char].
    rewrite but_last_last_char by exact Hlast; reflexivity.
Qed.

End MatlabRoundTrip.

(** ** From unit identifiers to Matlab identifiers and back *)

Lemma as_matlab_id_parts (parts : list string) :
  parts <> [] -> List.length parts <= 9 ->
  Forall (fun part => mentions "|" part = false) parts ->
  as_matlab_id (String.concat "|" parts)
  = match nth_error parts 3 with
    | None => Thrown TypeError
    | Some residue =>
        Got (nth 2 parts "" +++ ":" +++ residue
             +++ py_str (part_value parts 4) +++ nth 7 parts "")
    end.
Proof.
  intros Hne Hlen Hbar; unfold as_matlab_id, UnitIdParser.
  rewrite split_on_concat by assumption.
  destruct parts
    as [|p0 [|p1 [|p2 [|p3 [|p4 [|p5 [|p6 [|p7 [|p8 [|p9 more]]]]]]]]]];
    [contradiction|..|simpl in Hlen; lia]; cbn; try reflexivity.
  all: destruct (String.eqb_spec p7 ""); subst; cbn; reflexivity.
Qed.

(** X20: [as_matlab_id] reads the chain, the residue, the number and the
    insertion code off a unit identifier: the result is
    [chain:residue+number+code].  An identifier without a residue (fewer
    than four parts) raises [TypeError], and one without a number (four
    parts) gets the text [None] for it. *)
Theorem as_matlab_id_of_parts (parts : list string) :
  parts <> [] -> List.length parts <= 9 ->
  Forall (fun part => mentions "|" part = false) parts ->
  as_matlab_id (String.concat "|" parts)
  = match nth_error parts 3 with
    | None => Thrown TypeError
    | Some residue =>
        Got (nth 2 parts "" +++ ":" +++ residue
             +++ py_str (part_value parts 4) +++ nth 7 parts "")
    end.
Proof. exact (@as_matlab_id_parts parts). Qed.

Lemma upper_char_bar (c : ascii) :
  Ascii.eqb (upper_char c) "|" = Ascii.eqb c "|".
Proof. destruct c as [[] [] [] [] [] [] [] []]; reflexivity. Qed.

Lemma mentions_bar_upper (s : string) :
  mentions "|" (upper s) = mentions "|" s.
Proof.
  induction s as [|c s IH]; simpl; [reflexivity|].
  now rewrite upper_char_bar, IH.
Qed.

Lemma mentions_but_last (c last : ascii) (s : string) :
  last_char s = Some last -> mentions c s = false ->
  mentions c (but_last s) = false /\ Ascii.eqb last c = false.
Proof.
  induction s as [|d s IH]; simpl; [discriminate|].
  destruct s as [|d' s'].
  - intros [= ->] H; apply orb_false_iff in H as [H _]; now split.
  - intros Hl H; apply orb_false_iff in H as [Hd Hm].
    destruct (IH Hl Hm) as [IH1 IH2]; split; [|exact IH2].
    simpl; simpl in IH1; now rewrite Hd, IH1.
Qed.

Lemma append_blank_r (s : string) : s +++ "" = s.
Proof. induction s as [|c s IH]; simpl; [reflexivity | now rewrite IH]. Qed.

Section MatlabViaUnit.

#[local] Arguments insertion_code : simpl never.
#[local] Arguments String.concat : simpl never.

(** X21: a Matlab identifier survives the way through a unit identifier.
    For [chain:RNNNc] as in the round trip of the Matlab parser, with no
    [|] in it and a PDB name that is not empty, [as_matlab_id] gives back
    the identifier that [matlab_id_as_unit_id] was given. *)
Theorem matlab_id_survives_unit_id (pdb chain body : string) (r last : ascii) :
  pdb <> "" -> mentions "|" pdb = false ->
  mentions ":" chain = false -> mentions "|" chain = false ->
  mentions ":" (String r body) = false ->
  mentions "|" (String r body) = false ->
  last_char body = Some last ->
  is_digit last = true
  \/ (last <> "?"%char /\ is_space last = false /\ but_last body <> "") ->
  (try unit := matlab_id_as_unit_id (VStr pdb)
                 (chain +++ ":" +++ String r body) [] in
   as_matlab_id unit)
  = Got (chain +++ ":" +++ String r body).
Proof.
  intros Hpdb Hpbar Hccolon Hcbar Hbcolon Hbbar Hlast Hcases.
  unfold matlab_id_as_unit_id.
  change (chain +++ ":" +++ String r body)
    with (chain +++ String ":" (String r body)).
  rewrite split_on_app by exact Hccolon.
  rewrite split_on_plain by exact Hbcolon.
  unfold number_and_code; cbn; rewrite Hlast; cbn.
  apply String.eqb_neq in Hpdb.
  simpl in Hbbar; apply orb_false_iff in Hbbar as [Hrbar Hbbar].
  assert (mentions "|" (upper pdb) = false) as Hubar
    by now rewrite mentions_bar_upper.
  assert (mentions "|" (String r "") = false) as Hr1
    by (simpl; now rewrite Hrbar).
  destruct (is_digit last) eqn:Hd; cbn.
  - pose proof (last_char_not_empty Hlast) as Hne.
    apply String.eqb_neq in Hne.
    unfold unit_id, fragments, merge, check_required; cbn.
    unfold py_eq; cbn; rewrite Hpdb; cbn.
    rewrite insertion_code_none by reflexivity; cbn; rewrite Hne; cbn.
    rewrite as_matlab_id_parts;
      [ | discriminate | simpl; lia | repeat constructor; auto].
    cbn; now rewrite append_blank_r.
  - destruct Hcases as [Hd'|(Hq & Hs & Hnum)]; [discriminate|].
    destruct (mentions_but_last "|" _ Hlast Hbbar) as [Hnbar Hlbar].
    apply String.eqb_neq in Hnum.
    unfold unit_id, fragments, merge, check_required; cbn.
    unfold py_eq; cbn; rewrite Hpdb; cbn.
    rewrite (@insertion_code_plain _ (String last ""));
      [cbn | reflexivity | now apply plain_code_char].
    rewrite Hnum; cbn.
    rewrite as_matlab_id_parts;
      [ | discriminate | simpl; lia
        | repeat constructor; auto; simpl; now rewrite Hlbar ].
    cbn; now rewrite but_last_last_char by exact Hlast.
Qed.

End MatlabViaUnit.

(** ** generate_converter *)

(** X22: [generate_converter] checks the input type first: a type other
    than [unit], [matlab], [nucleotide], [old] and [nt] raises
    [InvalidUnitType] about the input, whatever the output type.  With a
    known input type, the output types [unit], [matlab], [nucleotide] and
    [old] give a converter, and (the input not being [nt]) a name that is
    none of the five raises [InvalidUnitType] about the output. *)
Theorem generate_converter_checks_types (input_type output_type : string) :
  let names := ["unit"; "matlab"; "nucleotide"; "old"; "nt"] in
  (~ In input_type names ->
   generate_converter input_type output_type
   = Thrown (InvalidUnitType
               ("Input type " +++ input_type +++ " is unknown")))
  /\ (In input_type names ->
      In output_type ["unit"; "matlab"; "nucleotide"; "old"] ->
      exists convert, generate_converter input_type output_type = Got convert)
  /\ (In input_type names -> input_type <> "nt" ->
      ~ In output_type names ->
      generate_converter input_type output_type
      = Thrown (InvalidUnitType
                  ("Output type " +++ output_type +++ " is unknown"))).
Proof.
  intros names; unfold generate_converter; split; [|split].
  - intros Hin.
    repeat match goal with
           | |- context [input_type =? ?name] =>
               destruct (String.eqb_spec input_type name);
               [subst; exfalso; apply Hin; simpl; tauto|]
           end.
    reflexivity.
  - intros Hin Hout; simpl in Hin, Hout.
    repeat match goal with
           | H : _ \/ _ |- _ => destruct H as [<-|H]
           | H : False |- _ => destruct H
           end; simpl; eauto.
  - intros Hin Hnt Hout; simpl in Hin.
    repeat match goal with
           | |- context [output_type =? ?name] =>
               destruct (String.eqb_spec output_type name);
               [subst; exfalso; apply Hout; simpl; tauto|]
           end.
    repeat match goal with
           | H : _ \/ _ |- _ => destruct H as [<-|H]
           | H : False |- _ => destruct H
           end; simpl; try reflexivity; now destruct Hnt.
Qed.

(** ** Concrete identifiers *)

Lemma check_required_witness :
  check_required NucleotideIdGenerator [("pdb", VStr "1S72")]
  = Thrown (MissingRequiredFragment "Missing required type").
Proof.
  apply (@check_required_reports_first_unusable NucleotideIdGenerator
           ["pdb"] ["model"; "chain"; "number"; "residue"] "type"
           [("pdb", VStr "1S72")] eq_refl).
  - intros n [<-|[]]; exists (VStr "1S72"); repeat split; discriminate.
  - now left.
Defined.

Lemma unit_id_round_trip_witness :
  (try obj := UnitIdParser "1S72|1|A|G|12|||B" in
   unit_id UnitIdGenerator obj true [])
  = Got "1S72|1|A|G|12|||B".
Proof.
  apply (@unit_id_round_trip "1S72" ["1"; "A"; "G"; "12"; ""; ""; "B"]).
  - simpl; lia.
  - repeat constructor.
  - discriminate.
  - reflexivity.
  - reflexivity.
  - intros code [= <-]; left; repeat split; discriminate.
  - discriminate.
Defined.

Lemma unit_id_raises_witness :
  (exists msg, MissingRequiredFragment "Missing required pdb"
               = MissingRequiredFragment msg)
  \/ (MissingRequiredFragment "Missing required pdb" = AttributeError
      /\ match merged_value UnitIdGenerator [("chain", VStr "A")] []
                 "insertion_code" with
         | VInt _ | VBool _ => True
         | _ => False
         end).
Proof.
  apply (@unit_id_raises_missing_fragment_only UnitIdGenerator
           [("chain", VStr "A")] [] true _ eq_refl eq_refl).
Defined.

Lemma matlab_id_round_trip_witness :
  (try data := MatlabIdParser "A:G12B" [] in
   matlab_id MatlabIdGenerator data [])
  = Got "A:G12B".
Proof.
  apply (@matlab_id_round_trip "A" "12B" "G" "B").
  - discriminate.
  - reflexivity.
  - reflexivity.
  - reflexivity.
  - right; repeat split; discriminate.
Defined.

Lemma as_matlab_id_witness :
  as_matlab_id "1S72|1|A|G|12" = Got "A:G12".
Proof.
  apply (@as_matlab_id_of_parts ["1S72"; "1"; "A"; "G"; "12"]).
  - discriminate.
  - simpl; lia.
  - repeat constructor.
Defined.

Lemma matlab_id_survives_witness :
  (try unit := matlab_id_as_unit_id (VStr "1s72") "A:G12" [] in
   as_matlab_id unit)
  = Got "A:G12".
Proof.
  apply (@matlab_id_survives_unit_id "1s72" "A" "12" "G" "2").
  - discriminate.
  - reflexivity.
  - reflexivity.
  - reflexivity.
  - reflexivity.
  - reflexivity.
  - reflexivity.
  - now left.
Defined.
